(** * MicroPython OS backend: prompt-boundary detection and block submission

    A shallow embedding of [thonny/plugins/micropython/os_backend.py]
    (class [MicroPythonOsBackend]): the read loop
    [_forward_output_until_active_prompt], the paste-mode submission
    [_execute_with_consumer], and the two callers of the read loop,
    [_process_until_initial_prompt] and [_cmd_Run].

    Python [bytes] values are lists of [byte] and [str] values lists of code
    points, with [bytes.decode] a function that may fail; the connection
    object is an interface (the source obtains it from the abstract
    [_create_connection]); the [while True] loop is a step function iterated
    with fuel. *)

From Stdlib Require Import List Arith NArith Bool Lia.
From Stdlib Require Import Strings.Byte.
From Stdlib Require Strings.String.
Import ListNotations.
Import String.StringSyntax.
Delimit Scope string_scope with string.

Set Implicit Arguments.

(** ** Python [bytes] *)

Module Bytes.

Definition bytes := list byte.

(** A [bytes] literal, written as a string. *)
Definition lit (s : String.string) : bytes := String.list_byte_of_string s.
Arguments lit s%_string.

Fixpoint eqb (a b : bytes) : bool :=
  match a, b with
  | [], [] => true
  | x :: a', y :: b' => Byte.eqb x y && eqb a' b'
  | _, _ => false
  end.

(** [not data] on a [bytes] value. *)
Definition is_empty (a : bytes) : bool :=
  match a with [] => true | _ :: _ => false end.

(** [s.endswith(suffix)] *)
Definition endswith (s suffix : bytes) : bool :=
  (length suffix <=? length s) && eqb (skipn (length s - length suffix) s) suffix.

(** [s[: -n]] for [n = len(marker)]: Python reads [-0] as [0], so the slice
    is empty when [n = 0]; otherwise it drops the last [n] bytes. *)
Definition drop_last (s : bytes) (n : nat) : bytes :=
  match n with
  | 0 => []
  | S _ => firstn (length s - n) s
  end.

(** [b"".join(chunks)] *)
Definition join (chunks : list bytes) : bytes := concat chunks.

(** [hay.count(needle)] for a one-byte needle. *)
Definition count_byte (x : byte) (s : bytes) : nat :=
  length (filter (Byte.eqb x) s).

(** [needle in hay] *)
Fixpoint startswith (s prefix : bytes) : bool :=
  match prefix, s with
  | [], _ => true
  | p :: prefix', x :: s' => Byte.eqb p x && startswith s' prefix'
  | _ :: _, [] => false
  end.

Fixpoint contains (hay needle : bytes) : bool :=
  startswith hay needle ||
  match hay with
  | [] => false
  | _ :: hay' => contains hay' needle
  end.

End Bytes.
Import Bytes.

(** ** Python [str] *)

Module Text.

(** A [str] is a sequence of code points. *)
Definition text := list N.

(** [s.startswith(prefix)] *)
Fixpoint startswith (s prefix : text) : bool :=
  match prefix, s with
  | [], _ => true
  | p :: prefix', x :: s' => N.eqb p x && startswith s' prefix'
  | _ :: _, [] => false
  end.

(** [needle in hay] *)
Fixpoint contains (hay needle : text) : bool :=
  startswith hay needle ||
  match hay with
  | [] => false
  | _ :: hay' => contains hay' needle
  end.

(** [s.replace(old, new)] for a non-empty [old], scanning left to right. *)
Fixpoint replace_fuel (fuel : nat) (s old new : text) : text :=
  match fuel with
  | 0 => s
  | S fuel' =>
      match s with
      | [] => []
      | x :: s' =>
          if startswith s old
          then new ++ replace_fuel fuel' (skipn (length old) s) old new
          else x :: replace_fuel fuel' s' old new
      end
  end.

Definition replace (s old new : text) : text :=
  replace_fuel (length s) s old new.

(** The code points of carriage return and line feed. *)
Definition CR : N := 13.
Definition NL : N := 10.

End Text.

(** ** The UTF-8 codec

    [bytes.decode("utf-8")] with strict error handling, the decoding used in
    the concrete runs below: the well-formed byte sequences are those of the
    Unicode standard (no overlong forms, no surrogates, nothing above
    U+10FFFF); anything else is a [UnicodeDecodeError], here [None]. *)
Module Utf8.

Definition within (lo hi x : N) : bool := (N.leb lo x && N.leb x hi)%bool.

(** A continuation byte and its six bits. *)
Definition continuation (x : N) : bool := within 128 191 x.
Definition six (x : N) : N := (x - 128)%N.

(** The range of the second byte after the lead byte [a] of a sequence of
    three, and of a sequence of four. *)
Definition second_of_three (a b : N) : bool :=
  if N.eqb a 224 then within 160 191 b
  else if N.eqb a 237 then within 128 159 b
  else within 128 191 b.

Definition second_of_four (a b : N) : bool :=
  if N.eqb a 240 then within 144 191 b
  else if N.eqb a 244 then within 128 143 b
  else within 128 191 b.

Fixpoint decode_points (fuel : nat) (s : list N) : option Text.text :=
  match fuel with
  | 0 => match s with [] => Some [] | _ :: _ => None end
  | S fuel' =>
      match s with
      | [] => Some []
      | a :: s1 =>
          if N.ltb a 128 then
            option_map (cons a) (decode_points fuel' s1)
          else if within 194 223 a then
            match s1 with
            | b :: s2 =>
                if continuation b then
                  option_map (cons ((a - 192) * 64 + six b)%N)
                             (decode_points fuel' s2)
                else None
            | _ => None
            end
          else if within 224 239 a then
            match s1 with
            | b :: c :: s3 =>
                if second_of_three a b && continuation c then
                  option_map
                    (cons (((a - 224) * 64 + six b) * 64 + six c)%N)
                    (decode_points fuel' s3)
                else None
            | _ => None
            end
          else if within 240 244 a then
            match s1 with
            | b :: c :: d :: s4 =>
                if second_of_four a b && continuation c && continuation d then
                  option_map
                    (cons ((((a - 240) * 64 + six b) * 64 + six c) * 64
                           + six d)%N)
                    (decode_points fuel' s4)
                else None
            | _ => None
            end
          else None
      end
  end.

Definition decode (data : bytes) : option Text.text :=
  decode_points (length data) (map Byte.to_N data).

End Utf8.

(** ** Results and errors *)

(** The exception classes of the protocol. *)
Inductive Error :=
| TransportError
| TimeoutError (observed : bytes)
| ProtocolError (observed : bytes)
| ConnectionFailedException (msg : bytes)
| IndexError.

Inductive Result (A : Type) :=
| Ok (a : A)
| Raised (e : Error).
Arguments Ok {A} a.
Arguments Raised {A} e.

Inductive stream_name := stdout | stderr.

(** ** Wire constants

    [LF] and [NORMAL_PROMPT] are imported from [bare_metal_backend] and
    [EOT] from [backend]; their values are not part of this file, so the
    development is parametric in them. *)
Class Wire := {
  LF : bytes;
  NORMAL_PROMPT : bytes;
  EOT : bytes
}.

Definition PASTE_MODE_CMD : bytes := [x05].
Definition PASTE_MODE_LINE_PREFIX : bytes := Eval cbv in lit "=== ".

(** The literal the source appends to every script and then waits for. *)
Definition SENTINEL : bytes := Eval cbv in lit "#uuu".

(** ** The connection interface *)

(** Modelled from the spec: the connection classes ([SubprocessConnection],
    [SshProcessConnection]) are not part of this file; [self._connection] is
    produced by the abstract [_create_connection].  The interface is the
    transport contract: [write] and the hard [read_until] may fail, the soft
    reads return what is available within their timeout, possibly nothing.
    [soft_read(size, timeout)] is taken from its call in the read loop.
    Timeouts are in milliseconds; what arrives within a timeout is decided
    by the instance. *)
Class Connection (C : Type) := {
  write : bytes -> C -> Result unit * C;
  read_until : bytes -> C -> Result bytes * C;
  soft_read_until : list bytes -> nat -> C -> bytes * C;
  soft_read : nat -> nat -> C -> bytes * C;
  close : C -> C
}.

(** ** The backend object *)

(** Messages sent to the front end ([send_message], [_send_output]). *)
Inductive BackendEvent :=
| ProgramOutput (stream : stream_name) (data : bytes)
| HideTrailingOutput (text : Text.text).

Section Backend.

Context {W : Wire} {C : Type} {Conn : Connection C}.

(** Side commands waiting in the command queue, and what servicing one of
    them does to the connection (an input submission or an interrupt is
    written to the device). *)
Variable Request : Type.
Variable service : Request -> C -> C.

(** What the backend did, in order. *)
Inductive Event :=
| Serviced (r : Request)
| SoftReadUntil (data : bytes)
| SoftRead (size : nat) (data : bytes)
| ReadUntil (marker : bytes) (res : Result bytes)
| Written (data : bytes) (res : Result unit)
| Consumed (data : bytes) (stream : stream_name).

(** [self].  [inbox] lists the requests that other threads put into the
    command queue while each of the coming reads is waiting; [history] is the
    trace of what has been done. *)
Record Backend := mkBackend {
  connection : C;
  command_queue : list Request;
  inbox : list (list Request);
  history : list Event;
  outbox : list BackendEvent;
  original_welcome_text : Text.text;
  welcome_text : Text.text
}.

Definition set_connection (c : C) (b : Backend) : Backend :=
  mkBackend c (command_queue b) (inbox b) (history b) (outbox b)
            (original_welcome_text b) (welcome_text b).

Definition set_command_queue (q : list Request) (b : Backend) : Backend :=
  mkBackend (connection b) q (inbox b) (history b) (outbox b)
            (original_welcome_text b) (welcome_text b).

Definition set_inbox (i : list (list Request)) (b : Backend) : Backend :=
  mkBackend (connection b) (command_queue b) i (history b) (outbox b)
            (original_welcome_text b) (welcome_text b).

Definition log (e : Event) (b : Backend) : Backend :=
  mkBackend (connection b) (command_queue b) (inbox b) (history b ++ [e]) (outbox b)
            (original_welcome_text b) (welcome_text b).

Definition set_outbox (o : list BackendEvent) (b : Backend) : Backend :=
  mkBackend (connection b) (command_queue b) (inbox b) (history b) o
            (original_welcome_text b) (welcome_text b).

Definition set_welcome (orig tweaked : Text.text) (b : Backend) : Backend :=
  mkBackend (connection b) (command_queue b) (inbox b) (history b) (outbox b)
            orig tweaked.

(** A read is a suspension point: the requests issued while it waits join
    the command queue. *)
Definition suspend (b : Backend) : Backend :=
  match inbox b with
  | [] => b
  | rs :: rest => set_inbox rest (set_command_queue (command_queue b ++ rs) b)
  end.

(** [self._connection.soft_read_until(closers, timeout)] *)
Definition do_soft_read_until (closers : list bytes) (timeout : nat)
    (b : Backend) : bytes * Backend :=
  let '(data, c) := soft_read_until closers timeout (connection b) in
  (data, log (SoftReadUntil data) (suspend (set_connection c b))).

(** [self._connection.soft_read(size, timeout)] *)
Definition do_soft_read (size timeout : nat) (b : Backend) : bytes * Backend :=
  let '(data, c) := soft_read size timeout (connection b) in
  (data, log (SoftRead size data) (suspend (set_connection c b))).

(** [self._connection.read_until(marker)] *)
Definition do_read_until (marker : bytes) (b : Backend) : Result bytes * Backend :=
  let '(res, c) := read_until marker (connection b) in
  (res, log (ReadUntil marker res) (suspend (set_connection c b))).

(** [self._connection.write(data)] *)
Definition do_write (data : bytes) (b : Backend) : Result unit * Backend :=
  let '(res, c) := write data (connection b) in
  (res, log (Written data res) (set_connection c b)).

(** Servicing one request may write to the transport. *)
Definition service_one (b : Backend) (r : Request) : Backend :=
  log (Serviced r) (set_connection (service r (connection b)) b).

(** Modelled from the spec: [_check_for_side_commands] belongs to the base
    class [MicroPythonBackend], which is not part of this file.  It checks
    for and services any pending request: the queue is drained in order. *)
Definition check_for_side_commands (b : Backend) : Backend :=
  fold_left service_one (command_queue b) (set_command_queue [] b).

(** Modelled from the spec: [ends_overlap] is imported from [backend], which
    is not part of this file.  An overlap is a suffix of the accumulated
    buffer that is also a non-empty proper prefix of the marker. *)
Definition ends_overlap (left right : bytes) : bool :=
  existsb (fun i => endswith left (firstn i right)) (seq 1 (length right - 1)).

(** ** [_forward_output_until_active_prompt] *)

Section Forward.

(** [output_consumer] is a callback; [K] is the state it mutates. *)
Variable K : Type.
Variable output_consumer : bytes -> stream_name -> K -> K.
Variable stream : stream_name.

(** [output_consumer(data, stream_name)] *)
Definition consume (data : bytes) (b : Backend) (k : K) : Backend * K :=
  (log (Consumed data stream) b, output_consumer data stream k).

(** The loop variables: [self], the consumer's state and [pending]. *)
Record Frame := mkFrame {
  self : Backend;
  sink : K;
  pending : bytes
}.

Inductive Step :=
| Continue (f : Frame)
| Return (ret : bytes) (f : Frame).

Definition INCREMENTAL_OUTPUT_BLOCK_CLOSERS : list bytes := [LF; NORMAL_PROMPT].

(** One pass through the body of [while True]. *)
Definition loop_body (f : Frame) : Step :=
  let b1 := check_for_side_commands (self f) in
  let '(new_data, b2) := do_soft_read_until INCREMENTAL_OUTPUT_BLOCK_CLOSERS 50 b1 in
  if is_empty new_data then Continue (mkFrame b2 (sink f) (pending f))
  else
    let pending := pending f ++ new_data in
    if endswith pending LF then
      let '(b3, k) := consume pending b2 (sink f) in
      Continue (mkFrame b3 k [])
    else if endswith pending NORMAL_PROMPT then
      let out := drop_last pending (length NORMAL_PROMPT) in
      let '(b3, k) := consume out b2 (sink f) in
      Return NORMAL_PROMPT (mkFrame b3 k pending)
    else if ends_overlap pending NORMAL_PROMPT then
      let '(follow_up, b3) := do_soft_read 1 100 b2 in
      if is_empty follow_up then
        let '(b4, k) := consume pending b3 (sink f) in
        Continue (mkFrame b4 k [])
      else
        Continue (mkFrame b3 (sink f) (pending ++ follow_up))
    else
      let '(b3, k) := consume pending b2 (sink f) in
      Continue (mkFrame b3 k []).

(** The first two statements of the body: the side-command check, then the
    poll of the connection. *)
Definition poll (f : Frame) : bytes * Backend :=
  do_soft_read_until INCREMENTAL_OUTPUT_BLOCK_CLOSERS 50
    (check_for_side_commands (self f)).

(** The branches of the body as a relation between the frame before a pass
    and its outcome. *)
Inductive Pass (f : Frame) : Step -> Prop :=
| pass_idle b2 :
    poll f = ([], b2) ->
    Pass f (Continue (mkFrame b2 (sink f) (pending f)))
| pass_line d b2 b3 k :
    poll f = (d, b2) -> d <> [] ->
    endswith (pending f ++ d) LF = true ->
    consume (pending f ++ d) b2 (sink f) = (b3, k) ->
    Pass f (Continue (mkFrame b3 k []))
| pass_prompt d b2 b3 k :
    poll f = (d, b2) -> d <> [] ->
    endswith (pending f ++ d) LF = false ->
    endswith (pending f ++ d) NORMAL_PROMPT = true ->
    consume (drop_last (pending f ++ d) (length NORMAL_PROMPT)) b2 (sink f) = (b3, k) ->
    Pass f (Return NORMAL_PROMPT (mkFrame b3 k (pending f ++ d)))
| pass_overlap_timeout d b2 b3 b4 k :
    poll f = (d, b2) -> d <> [] ->
    endswith (pending f ++ d) LF = false ->
    endswith (pending f ++ d) NORMAL_PROMPT = false ->
    ends_overlap (pending f ++ d) NORMAL_PROMPT = true ->
    do_soft_read 1 100 b2 = ([], b3) ->
    consume (pending f ++ d) b3 (sink f) = (b4, k) ->
    Pass f (Continue (mkFrame b4 k []))
| pass_overlap_withheld d b2 follow_up b3 :
    poll f = (d, b2) -> d <> [] ->
    endswith (pending f ++ d) LF = false ->
    endswith (pending f ++ d) NORMAL_PROMPT = false ->
    ends_overlap (pending f ++ d) NORMAL_PROMPT = true ->
    do_soft_read 1 100 b2 = (follow_up, b3) -> follow_up <> [] ->
    Pass f (Continue (mkFrame b3 (sink f) ((pending f ++ d) ++ follow_up)))
| pass_plain d b2 b3 k :
    poll f = (d, b2) -> d <> [] ->
    endswith (pending f ++ d) LF = false ->
    endswith (pending f ++ d) NORMAL_PROMPT = false ->
    ends_overlap (pending f ++ d) NORMAL_PROMPT = false ->
    consume (pending f ++ d) b2 (sink f) = (b3, k) ->
    Pass f (Continue (mkFrame b3 k [])).

(** The device stays silent for the next [n] passes from [f]: each poll
    returns nothing. *)
Fixpoint idle_for (n : nat) (f : Frame) : Prop :=
  match n with
  | 0 => True
  | S n' =>
      fst (poll f) = [] /\
      idle_for n' (mkFrame (snd (poll f)) (sink f) (pending f))
  end.

(** The frame a step carries. *)
Definition frame_of (s : Step) : Frame :=
  match s with Continue f => f | Return _ f => f end.

(** The loop, run for at most [fuel] passes: [Return] when the body
    returned, [Continue f] with the frame reached when the fuel ran out. *)
Fixpoint iterate (fuel : nat) (f : Frame) : Step :=
  match fuel with
  | 0 => Continue f
  | S fuel' =>
      match loop_body f with
      | Continue f' => iterate fuel' f'
      | Return ret f' => Return ret f'
      end
  end.

(** [self._forward_output_until_active_prompt(output_consumer, stream_name)],
    starting with [pending = b""]. *)
Definition forward_output_until_active_prompt (fuel : nat) (b : Backend) (k : K)
    : Step :=
  iterate fuel (mkFrame b k []).

End Forward.

(** ** [_execute_with_consumer] *)

Section Execute.

Variable K : Type.
Variable output_consumer : bytes -> stream_name -> K -> K.

(** Statements that may raise, threaded through [self]. *)
Definition Action (A : Type) := Backend -> Result A * Backend.

Definition and_then {A B : Type} (m : Action A) (k : A -> Action B) : Action B :=
  fun b =>
    match m b with
    | (Ok a, b') => k a b'
    | (Raised e, b') => (Raised e, b')
    end.

Notation "m ;;; k" := (and_then m (fun _ => k))
  (at level 61, right associativity).

(** The statements up to and including the read of the output. *)
Definition submit (script : bytes) : Action bytes :=
  do_write PASTE_MODE_CMD ;;;
  do_read_until PASTE_MODE_LINE_PREFIX ;;;
  do_write (script ++ SENTINEL) ;;;
  do_read_until SENTINEL ;;;
  do_write EOT ;;;
  do_read_until [x0a] ;;;
  do_read_until NORMAL_PROMPT.

Definition execute_with_consumer (script : bytes) (b : Backend) (k : K)
    : Result unit * Backend * K :=
  match submit script b with
  | (Raised e, b') => (Raised e, b', k)
  | (Ok data, b') =>
      let out := drop_last data (length NORMAL_PROMPT) in
      let '(b'', k') := consume output_consumer stdout out b' k in
      (Ok tt, b'', k')
  end.

End Execute.

(** ** The callers of the read loop

    [_report_time] only records timings and is left out. *)

(** Modelled from the spec: [_send_output] belongs to the base class; it is
    the sink interface [deliver(bytes, stream_tag)]. *)
Definition send_output (data : bytes) (stream : stream_name)
    (o : list BackendEvent) : list BackendEvent :=
  o ++ [ProgramOutput stream data].

Definition send_message (m : BackendEvent) (b : Backend) : Backend :=
  set_outbox (outbox b ++ [m]) b.

(** [collect_output], the closure of [_process_until_initial_prompt]. *)
Definition collect_output (data : bytes) (_ : stream_name) (output : list bytes)
    : list bytes :=
  output ++ [data].

(** [_tweak_welcome_text] is overridden per subclass. *)
Variable tweak_welcome_text : Text.text -> Text.text.

(** [data.decode(ENCODING)]: the text, or [None] for the
    [UnicodeDecodeError] it raises.  [ENCODING] is imported from [backend]
    and is not part of this file. *)
Variable decode : bytes -> option Text.text.

(** How [_process_until_initial_prompt] stands after [fuel] passes of the
    read loop: still in the loop; out of it with [UnicodeDecodeError] raised
    by the decoding, the welcome texts not assigned; or done. *)
Inductive InitialPrompt :=
| Reading (f : Frame (list bytes))
| Undecodable (b : Backend)
| Welcomed (b : Backend).

(** [self] as it stands then. *)
Definition state_of (o : InitialPrompt) : Backend :=
  match o with
  | Reading f => self f
  | Undecodable b => b
  | Welcomed b => b
  end.

(** [_process_until_initial_prompt] *)
Definition process_until_initial_prompt (fuel : nat) (b : Backend)
    : InitialPrompt :=
  match forward_output_until_active_prompt collect_output stdout fuel b [] with
  | Continue f => Reading f
  | Return _ f =>
      match decode (join (sink f)) with
      | None => Undecodable (self f)
      | Some decoded =>
          let original := Text.replace decoded [Text.CR; Text.NL] [Text.NL] in
          Welcomed (set_welcome original (tweak_welcome_text original) (self f))
      end
  end.

(** The [Run] command: its argument list and its optional source. *)
Record RunCommand := mkRun {
  args : list bytes;
  source : option bytes
}.

(** [_create_connection], [_send_error_message] with the formatted warning,
    [_prepare_helpers] and [_update_cwd] are defined outside this class. *)
Variable create_connection : list bytes -> Result C.
Variable send_argument_warning : list bytes -> Backend -> Backend.
Variable prepare_helpers : Backend -> Backend.
Variable update_cwd : Backend -> Backend.

Definition truthy (s : option bytes) : bool :=
  match s with
  | Some (_ :: _) => true
  | _ => false
  end.

(** [_cmd_Run], from closing the old connection to creating the new one. *)
Definition cmd_Run_connect (cmd : RunCommand) (b : Backend) : Result Backend :=
  let b1 := set_connection (close (connection b)) b in
  let chosen :=
    if truthy (source cmd) then
      match args cmd, source cmd with
      | [], _ => Raised IndexError
      | a0 :: rest, Some src =>
          if eqb a0 (lit "-c") then
            Ok (match rest with
                | [] => b1
                | _ :: _ => send_argument_warning rest b1
                end, [lit "-c"; src])
          else Ok (b1, args cmd)
      | _ :: _, None => Ok (b1, args cmd)
      end
    else Ok (b1, args cmd) in
  match chosen with
  | Raised e => Raised e
  | Ok (b2, run_args) =>
      match create_connection run_args with
      | Raised e => Raised e
      | Ok c => Ok (set_connection c b2)
      end
  end.

(** [_cmd_Run], from the read loop to the [HideTrailingOutput] message. *)
Definition cmd_Run_forward (fuel : nat) (b : Backend) : option Backend :=
  match forward_output_until_active_prompt send_output stdout fuel b (outbox b) with
  | Continue _ => None
  | Return _ f =>
      let b' := set_outbox (sink f) (self f) in
      Some (send_message (HideTrailingOutput (original_welcome_text b')) b')
  end.

Definition cmd_Run (fuel : nat) (cmd : RunCommand) (b : Backend)
    : option (Result Backend) :=
  match cmd_Run_connect cmd b with
  | Raised e => Some (Raised e)
  | Ok b1 =>
      match cmd_Run_forward fuel b1 with
      | None => None
      | Some b2 => Some (Ok (update_cwd (prepare_helpers b2)))
      end
  end.

End Backend.

Arguments Backend C Request : clear implicits.
Arguments Event Request : clear implicits.
Arguments Serviced {Request} r.
Arguments SoftReadUntil {Request} data.
Arguments SoftRead {Request} size data.
Arguments ReadUntil {Request} marker res.
Arguments Written {Request} data res.
Arguments Consumed {Request} data stream.
Arguments Frame C Request K : clear implicits.
Arguments InitialPrompt C Request : clear implicits.
Arguments Reading {C Request} f.
Arguments Undecodable {C Request} b.
Arguments Welcomed {C Request} b.
Arguments mkFrame {C Request K} _ _ _.
Arguments Step C Request K : clear implicits.
Arguments mkBackend {C Request} _ _ _ _ _ _ _.
Arguments Continue {C Request K} f.
Arguments Return {C Request K} ret f.

(** ** A scripted connection

    An instance of the interface for running the code on concrete exchanges:
    the script lists, call by call, what each read returns.  [Arrives d]
    is a read that completes with [d]; [TimesOut d] is a read whose timeout
    passes with only [d] received.  An exhausted script is a silent device. *)
Module Scripted.

Inductive Reply :=
| Arrives (d : bytes)
| TimesOut (d : bytes).

Record Conn := mkConn {
  replies : list Reply;
  sent : list bytes;
  closed : bool
}.

Definition payload (r : Reply) : bytes :=
  match r with Arrives d => d | TimesOut d => d end.

Definition next (c : Conn) : Reply * Conn :=
  match replies c with
  | [] => (TimesOut [], c)
  | r :: rest => (r, mkConn rest (sent c) (closed c))
  end.

(** Modelled from the spec: a soft read returns whatever is available
    within its timeout, an empty result when nothing is. *)
Definition soft (c : Conn) : bytes * Conn :=
  let '(r, c') := next c in (payload r, c').

(** Modelled from the spec: a hard read returns the bytes read when the
    marker appeared, and fails with [TimeoutError] when its timeout passes
    first; the error carries the bytes read so far. *)
Definition hard (c : Conn) : Result bytes * Conn :=
  let '(r, c') := next c in
  match r with
  | Arrives d => (Ok d, c')
  | TimesOut d => (Raised (TimeoutError d), c')
  end.

(** Modelled from the spec: a write fails with [TransportError] on a closed
    channel. *)
Definition send (data : bytes) (c : Conn) : Result unit * Conn :=
  if closed c then (Raised TransportError, c)
  else (Ok tt, mkConn (replies c) (sent c ++ [data]) false).

#[export] Instance scripted : Connection Conn := {
  write := send;
  read_until := fun _ => hard;
  soft_read_until := fun _ _ => soft;
  soft_read := fun _ _ => soft;
  close := fun c => mkConn (replies c) (sent c) true
}.

(** Side commands for the examples: input for the running program, or an
    interrupt (Ctrl-C); servicing writes to the device. *)
Inductive SideCommand :=
| InputSubmission (data : bytes)
| Interrupt.

Definition service (r : SideCommand) (c : Conn) : Conn :=
  match r with
  | InputSubmission data => snd (send data c)
  | Interrupt => snd (send [x03] c)
  end.

Definition device (script : list Reply) : Conn := mkConn script [] false.

(** A backend attached to a device, with an empty queue and history. *)
Definition attach (script : list Reply) : Backend Conn SideCommand :=
  mkBackend (device script) [] [] [] [] [] [].

End Scripted.

(** The constants as MicroPython has them: the REPL prompt, the line feed
    and Ctrl-D. *)
Definition micropython : Wire := {|
  LF := [x0a];
  NORMAL_PROMPT := lit ">>> ";
  EOT := [x04]
|}.

(** ** Reading a history *)

Section Observations.

Context {Request : Type}.
Implicit Type h : list (Event Request).

(** The units handed to the output consumer, in order. *)
Definition consumed_units h : list bytes :=
  flat_map (fun e => match e with Consumed d _ => [d] | _ => [] end) h.

(** The bytes the soft reads took from the connection, in order. *)
Definition received h : bytes :=
  flat_map (fun e =>
    match e with
    | SoftReadUntil d => d
    | SoftRead _ d => d
    | _ => []
    end) h.

(** The requests serviced, in order. *)
Definition serviced h : list Request :=
  flat_map (fun e => match e with Serviced r => [r] | _ => [] end) h.

(** The passes of the loop in which [soft_read_until] returned data. *)
Definition fruitful_polls h : nat :=
  length (filter (fun e =>
    match e with
    | SoftReadUntil d => negb (is_empty d)
    | _ => false
    end) h).

(** The soft reads attempted (of either kind). *)
Definition soft_reads h : nat :=
  length (filter (fun e =>
    match e with
    | SoftReadUntil _ | SoftRead _ _ => true
    | _ => false
    end) h).

(** What was written to the connection, and the markers waited for. *)
Definition writes h : list bytes :=
  flat_map (fun e => match e with Written d _ => [d] | _ => [] end) h.

Definition awaited h : list bytes :=
  flat_map (fun e => match e with ReadUntil m _ => [m] | _ => [] end) h.

(** The event is a call on the connection that raised [err]. *)
Definition raised_by (e : Event Request) (err : Error) : Prop :=
  match e with
  | ReadUntil _ (Raised err') => err' = err
  | Written _ (Raised err') => err' = err
  | _ => False
  end.

End Observations.

(** ** Concrete exchanges

    Devices and runs used to evaluate the code. *)
Module Scenario.
Import Scripted.

#[local] Existing Instance micropython.

(** The program printed [1] and the REPL is back at its prompt. *)
Definition printed_one : list Reply :=
  [Arrives (lit "1
"); Arrives (lit ">>> ")].


(** The prompt arrives in two pieces: its first three bytes when the poll
    times out, its last byte within the follow-up read; then silence. *)
Definition split_prompt : list Reply :=
  [TimesOut (lit ">>>"); Arrives (lit " ")].

(** The same, and later the device prints a line. *)
Definition split_prompt_then_line : list Reply :=
  [TimesOut (lit ">>>"); Arrives (lit " "); Arrives (lit "x
")].

(** Output ending with [>], then a byte that does not continue the prompt
    within the follow-up read; then silence. *)
Definition overlap_then_other : list Reply :=
  [TimesOut (lit "x>"); Arrives (lit "y")].

(** Two bytes of a would-be prompt, then nothing within the follow-up read. *)
Definition overlap_then_nothing : list Reply :=
  [TimesOut (lit ">>"); TimesOut []].

(** The boot text of the interpreter, then the prompt. *)
Definition banner : list Reply :=
  [Arrives (lit "MicroPython v1.12 on linux
"); Arrives (lit ">>> ")].

(** A device in paste mode that echoes [script], acknowledges the end of
    transmission and prints [output] before the prompt. *)
Definition echoing (script output : bytes) : list Reply :=
  [ Arrives (lit "paste mode; Ctrl-C to cancel, Ctrl-D to finish
=== ");
    Arrives (script ++ lit "#uuu");
    Arrives (lit "
");
    Arrives (output ++ lit ">>> ") ].

(** A device that enters paste mode and then echoes only part of what it
    was sent. *)
Definition no_echo : list Reply :=
  [ Arrives (lit "paste mode; Ctrl-C to cancel, Ctrl-D to finish
=== ");
    TimesOut (lit "pri") ].

(** The frame in which the read loop starts on a device. *)
Definition start (script : list Reply) : Frame Conn SideCommand (list bytes) :=
  mkFrame (attach script) [] [].

(** The same with requests that arrive during the coming reads. *)
Definition start_with_arrivals (script : list Reply)
    (queue : list SideCommand) (arrivals : list (list SideCommand))
    : Frame Conn SideCommand (list bytes) :=
  mkFrame (mkBackend (device script) queue arrivals [] [] [] []) [] [].

(** One pass and [fuel] passes of the read loop, collecting the units. *)
Definition pass (f : Frame Conn SideCommand (list bytes))
    : Step Conn SideCommand (list bytes) :=
  loop_body service collect_output stdout f.

Definition run (fuel : nat) (f : Frame Conn SideCommand (list bytes))
    : Step Conn SideCommand (list bytes) :=
  iterate service collect_output stdout fuel f.

(** A submission of [script] to a device, collecting the units. *)
Definition backend_with (queue : list SideCommand) (dev : list Reply)
    : Backend Conn SideCommand :=
  mkBackend (device dev) queue [] [] [] [] [].

Definition submit_to (script : bytes) (queue : list SideCommand)
    (dev : list Reply)
    : Result unit * Backend Conn SideCommand * list bytes :=
  execute_with_consumer collect_output script (backend_with queue dev) [].

Definition backend_of (r : Result unit * Backend Conn SideCommand * list bytes)
    : Backend Conn SideCommand := snd (fst r).

(** The token a finished submission waited for after its second write, and
    what that write sent. *)
Definition awaited_token (b : Backend Conn SideCommand) : bytes :=
  nth 1 (awaited (history b)) [].

Definition payload_written (b : Backend Conn SideCommand) : bytes :=
  nth 1 (writes (history b)) [].

(** The backend after [script] was submitted to a device that echoes it. *)
Definition after_echo (script : bytes) : Backend Conn SideCommand :=
  backend_of (submit_to script [] (echoing script [])).

(** A submission of [print(1)] with an interrupt waiting in the queue. *)
Definition interrupted_submission
    : Result unit * Backend Conn SideCommand * list bytes :=
  submit_to (lit "print(1)") [Interrupt] (echoing (lit "print(1)") (lit "1
")).

(** The backend after attaching to a device that boots and prompts, and
    after a [Run] on such a device; the welcome text is left as it is. *)
Definition or_else (o : option (Backend Conn SideCommand))
    (b : Backend Conn SideCommand) : Backend Conn SideCommand :=
  match o with Some b' => b' | None => b end.

Definition attached : Backend Conn SideCommand :=
  state_of (process_until_initial_prompt service (fun text => text)
              Utf8.decode 2 (attach banner)).

(** Boot text in Latin-1, which is not UTF-8, then the prompt; and the
    backend after attaching to such a device. *)
Definition latin_banner : list Reply :=
  [ Arrives (lit "caf" ++ [xe9; x0a]); Arrives (lit ">>> ") ].

Definition attached_latin : Backend Conn SideCommand :=
  state_of (process_until_initial_prompt service (fun text => text)
              Utf8.decode 2 (attach latin_banner)).

(** [a] and [b] trickle in without a line feed, then the prompt. *)
Definition trickle : list Reply :=
  [TimesOut (lit "a"); TimesOut (lit "b"); Arrives (lit ">>> ")].

Definition restarted : Backend Conn SideCommand :=
  or_else (cmd_Run_forward service 2 (attach banner)) (attach banner).

(** A silent device, an interrupt in the queue and input that is submitted
    during the first poll. *)
Definition waiting_requests : Frame Conn SideCommand (list bytes) :=
  start_with_arrivals [] [Interrupt] [[InputSubmission (lit "y")]; []].

(** A pass during whose poll an interrupt arrives, with an overlap read. *)
Definition interrupt_during_poll : Frame Conn SideCommand (list bytes) :=
  start_with_arrivals overlap_then_nothing [] [[Interrupt]].

End Scenario.

(** ** More of the class *)

From Stdlib Require Import ZArith.

Section MoreObservations.

Context {Request : Type}.
Implicit Type h : list (Event Request).

(** The calls of [soft_read_until]. *)
Definition polls h : nat :=
  length (filter (fun e =>
    match e with SoftReadUntil _ => true | _ => false end) h).

(** The sizes asked of [soft_read]. *)
Definition follow_ups h : list nat :=
  flat_map (fun e => match e with SoftRead n _ => [n] | _ => [] end) h.

(** The hard reads that returned. *)
Definition ok_reads h : nat :=
  length (filter (fun e =>
    match e with ReadUntil _ (Ok _) => true | _ => false end) h).

End MoreObservations.

Section MoreBackend.

Context {W : Wire} {C : Type} {Conn : Connection C} {Request : Type}.

(** A chunk the read loop hands over in the pass that receives it, when the
    buffer was empty: it ends with the line feed, or it neither ends with the
    prompt nor overlaps it. *)
Definition flushes_at_once (chunk : bytes) : bool :=
  negb (is_empty chunk) &&
  (endswith chunk LF ||
   (negb (endswith chunk NORMAL_PROMPT) && negb (ends_overlap chunk NORMAL_PROMPT))).

(** Modelled from the spec: [read_all] of the connection drains and returns
    whatever is immediately available, without blocking. *)
Variable read_all : C -> bytes * C.

(** [_forward_unexpected_output]; its [stream_name] argument is not used,
    both calls pass ["stdout"]. *)
Definition forward_unexpected_output (b : Backend C Request) : Backend C Request :=
  let '(data, c) := read_all (connection b) in
  let b1 := set_connection c b in
  if endswith data NORMAL_PROMPT then
    set_outbox
      (send_output (drop_last data (length NORMAL_PROMPT)) stdout (outbox b1)) b1
  else if negb (is_empty data) then
    set_outbox (send_output data stdout (outbox b1)) b1
  else b1.

(** [_which] is defined per subclass; it gives a path or nothing. *)
Variable which : bytes -> option bytes.

Definition NOT_FOUND_HINT : bytes :=
  Eval cbv in lit " You may need to provide its absolute path.".

(** [_resolve_executable] *)
Definition resolve_executable (executable : bytes) : Result bytes :=
  match which executable with
  | Some (x :: path) => Ok (x :: path)
  | _ =>
      let msg :=
        lit "Executable '" ++ executable
          ++ lit "' not found. Please check your configuration!" in
      let msg :=
        if negb (startswith executable (lit "/")) then msg ++ NOT_FOUND_HINT
        else msg in
      Raised (ConnectionFailedException msg)
  end.

(** How [__init__] ends: with the executable and the connection set and the
    base class initialiser to be run, with a message written to the front
    end, or with an exception it does not catch. *)
Inductive Construction :=
| Ready (mp_executable : bytes) (conn : C)
| Reported (message : BackendEvent)
| Propagated (e : Error).

Variable create_connection : list bytes -> Result C.

(** The [except ConnectionFailedException] clause of [__init__]. *)
Definition report_failure (e : Error) : Construction :=
  match e with
  | ConnectionFailedException msg =>
      Reported (ProgramOutput stderr ([x0a] ++ msg ++ [x0a]))
  | _ => Propagated e
  end.

(** [__init__], up to the call of the base class initialiser. *)
Definition init (mp_executable : bytes) : Construction :=
  match resolve_executable mp_executable with
  | Raised e => report_failure e
  | Ok exe =>
      match create_connection [] with
      | Raised e => report_failure e
      | Ok c => Ready exe c
      end
  end.

(** The dictionary of [_cmd_get_fs_info]. *)
Record FsInfo := mkFsInfo {
  fs_total : Z;
  fs_free : Z;
  fs_used : Z
}.

(** [out.strip().split()] and [int] are built in. *)
Variable split_fields : bytes -> list bytes.
Variable int_of : bytes -> option Z.

(** The [try] block of [_cmd_get_fs_info] on the output of [stat]: [None]
    stands for the exception raised when a field is not a number or there
    are not exactly four of them. *)
Definition fs_info_of_output (out : bytes) : option FsInfo :=
  match map int_of (split_fields out) with
  | [Some total; Some free; Some available; Some block_size] =>
      Some (mkFsInfo (total * block_size)%Z
                     (available * block_size)%Z
                     ((total - free) * block_size)%Z)
  | _ => None
  end.

End MoreBackend.

(** ** More concrete exchanges *)
Module MoreScenario.
Import Scripted Scenario.

#[local] Existing Instance micropython.

(** Boot text with CR LF line ends, then the prompt. *)
Definition crlf_banner : list Reply :=
  [ Arrives (lit "MicroPython v1.12 on linux" ++ [x0d; x0a]);
    Arrives (lit ">>> ") ].

(** A line, a chunk without line feed, and more text before the prompt. *)
Definition two_chunks : list bytes := [lit "a
"; lit "b"].

(** The backend after attaching to the device of [crlf_banner]. *)
Definition attached_crlf : Backend Conn SideCommand :=
  state_of (process_until_initial_prompt service (fun text => text)
              Utf8.decode 2 (attach crlf_banner)).

(** [read_all] on a scripted connection takes what the next reply holds. *)
Definition drain (c : Conn) : bytes * Conn := soft c.

(** Output left on the connection between two commands. *)
Definition leftover : Backend Conn SideCommand :=
  attach [Arrives (lit "late
>>> ")].

(** No executable is found anywhere. *)
Definition nowhere (_ : bytes) : option bytes := None.

(** Every connection attempt succeeds, on a silent device. *)
Definition connect_silent (_ : list bytes) : Result Conn := Ok (device []).

(** A [Run] of a source given with [-c] and one more argument. *)
Definition run_inline : RunCommand :=
  mkRun [lit "-c"; lit "extra"] (Some (lit "print(1)")).

(** Fields of one byte each, read as the number of the byte. *)
Definition byte_fields (out : bytes) : list bytes := map (fun x => [x]) out.

Definition byte_number (field : bytes) : option Z :=
  match field with
  | [x] => Some (Z.of_nat (Byte.to_nat x))
  | _ => None
  end.

End MoreScenario.

(** * Properties *)

(** ** Facts about [bytes] *)

Lemma eqb_eq (a b : bytes) : eqb a b = true <-> a = b.
Proof.
  revert b; induction a as [|x a IH]; intros [|y b]; simpl; split;
    try congruence; try reflexivity.
  - intros H. apply andb_true_iff in H as [Hx Hab].
    apply byte_dec_bl in Hx. apply IH in Hab. congruence.
  - intros H. injection H as -> ->. apply andb_true_iff. split.
    + now apply byte_dec_lb.
    + now apply IH.
Qed.

Lemma is_empty_true (a : bytes) : is_empty a = true <-> a = [].
Proof. destruct a; simpl; split; congruence. Qed.

Lemma is_empty_false (a : bytes) : is_empty a = false <-> a <> [].
Proof. destruct a; simpl; split; congruence. Qed.

Lemma endswith_split (s suffix : bytes) :
  endswith s suffix = true ->
  s = firstn (length s - length suffix) s ++ suffix.
Proof.
  unfold endswith. intros H. apply andb_true_iff in H as [_ H].
  apply eqb_eq in H.
  pose proof (firstn_skipn (length s - length suffix) s) as E.
  rewrite H in E. now symmetry.
Qed.

Lemma endswith_app (pre suffix : bytes) : endswith (pre ++ suffix) suffix = true.
Proof.
  unfold endswith. rewrite length_app. apply andb_true_iff. split.
  - apply Nat.leb_le. lia.
  - replace (length pre + length suffix - length suffix) with (length pre + 0) by lia.
    rewrite skipn_app, Nat.add_0_r, skipn_all.
    replace (length pre - length pre) with 0 by lia. simpl. now apply eqb_eq.
Qed.

Lemma endswith_iff (s suffix : bytes) :
  endswith s suffix = true <-> exists pre, s = pre ++ suffix.
Proof.
  split.
  - intros H. eexists. now apply endswith_split.
  - intros [pre ->]. apply endswith_app.
Qed.

(** [pending[: -len(marker)]] followed by the marker is [pending] again,
    for a non-empty marker that [pending] ends with. *)
Lemma drop_last_marker (s marker : bytes) :
  marker <> [] -> endswith s marker = true ->
  drop_last s (length marker) ++ marker = s.
Proof.
  intros Hne H. unfold drop_last.
  destruct marker as [|m marker']; [congruence|].
  symmetry. now apply endswith_split.
Qed.

Lemma drop_last_app (out marker : bytes) :
  marker <> [] -> drop_last (out ++ marker) (length marker) = out.
Proof.
  intros Hne. apply (app_inv_tail marker).
  apply drop_last_marker; [assumption | apply endswith_app].
Qed.

(** ** Facts about the backend state *)

Section BackendFacts.

Context {W : Wire} {C : Type} {Conn : Connection C} {Request : Type}.
Variable service : Request -> C -> C.
Implicit Type b : Backend C Request.

Lemma suspend_history b : history (suspend b) = history b.
Proof. unfold suspend. now destruct (inbox b). Qed.

Lemma suspend_outbox b : outbox (suspend b) = outbox b.
Proof. unfold suspend. now destruct (inbox b). Qed.

Lemma suspend_welcome b :
  original_welcome_text (suspend b) = original_welcome_text b.
Proof. unfold suspend. now destruct (inbox b). Qed.

Lemma suspend_queue b :
  command_queue (suspend b) = command_queue b ++ hd [] (inbox b).
Proof.
  unfold suspend. destruct (inbox b); simpl; [now rewrite app_nil_r | reflexivity].
Qed.

Lemma suspend_inbox b : inbox (suspend b) = tl (inbox b).
Proof. unfold suspend. destruct (inbox b) eqn:E; simpl; auto. Qed.

Lemma service_all_spec (q : list Request) b :
  let b' := fold_left (service_one service) q b in
  history b' = history b ++ map Serviced q /\
  command_queue b' = command_queue b /\
  inbox b' = inbox b /\
  outbox b' = outbox b /\
  original_welcome_text b' = original_welcome_text b.
Proof.
  revert b. induction q as [|r q IH]; intros b; simpl.
  - now rewrite app_nil_r.
  - destruct (IH (service_one service b r)) as (Hh & Hq & Hi & Ho & Hw).
    rewrite Hh, Hq, Hi, Ho, Hw. simpl. rewrite <- app_assoc. simpl. auto.
Qed.

(** The check services the whole queue, in order, and leaves it empty. *)
Lemma check_for_side_commands_spec b :
  let b' := check_for_side_commands service b in
  history b' = history b ++ map Serviced (command_queue b) /\
  command_queue b' = [] /\
  inbox b' = inbox b /\
  outbox b' = outbox b /\
  original_welcome_text b' = original_welcome_text b.
Proof.
  unfold check_for_side_commands.
  destruct (service_all_spec (command_queue b) (set_command_queue [] b))
    as (Hh & Hq & Hi & Ho & Hw).
  simpl in *. auto.
Qed.

Lemma do_soft_read_until_spec closers timeout b d b' :
  do_soft_read_until closers timeout b = (d, b') ->
  history b' = history b ++ [SoftReadUntil d] /\
  command_queue b' = command_queue b ++ hd [] (inbox b) /\
  inbox b' = tl (inbox b) /\
  outbox b' = outbox b /\
  original_welcome_text b' = original_welcome_text b.
Proof.
  unfold do_soft_read_until.
  destruct (soft_read_until closers timeout (connection b)) as [d0 c].
  intros H. injection H as <- <-. simpl.
  rewrite suspend_history, suspend_queue, suspend_inbox, suspend_outbox,
    suspend_welcome. simpl. auto.
Qed.

Lemma do_soft_read_spec size timeout b d b' :
  do_soft_read size timeout b = (d, b') ->
  history b' = history b ++ [SoftRead size d] /\
  command_queue b' = command_queue b ++ hd [] (inbox b) /\
  inbox b' = tl (inbox b) /\
  outbox b' = outbox b /\
  original_welcome_text b' = original_welcome_text b.
Proof.
  unfold do_soft_read.
  destruct (soft_read size timeout (connection b)) as [d0 c].
  intros H. injection H as <- <-. simpl.
  rewrite suspend_history, suspend_queue, suspend_inbox, suspend_outbox,
    suspend_welcome. simpl. auto.
Qed.

Lemma do_read_until_spec marker b res b' :
  do_read_until marker b = (res, b') ->
  history b' = history b ++ [ReadUntil marker res] /\
  command_queue b' = command_queue b ++ hd [] (inbox b) /\
  outbox b' = outbox b.
Proof.
  unfold do_read_until.
  destruct (read_until marker (connection b)) as [r c].
  intros H. injection H as <- <-. simpl.
  rewrite suspend_history, suspend_queue, suspend_outbox. simpl. auto.
Qed.

Lemma do_write_spec data b res b' :
  do_write data b = (res, b') ->
  history b' = history b ++ [Written data res] /\
  command_queue b' = command_queue b /\
  inbox b' = inbox b /\
  outbox b' = outbox b.
Proof.
  unfold do_write. destruct (write data (connection b)) as [r c].
  intros H. injection H as <- <-. simpl. auto.
Qed.

End BackendFacts.

(** ** Observations distribute over a growing history *)

Section ObservationFacts.

Context {Request : Type}.
Implicit Type h : list (Event Request).

Lemma consumed_units_app h1 h2 :
  consumed_units (h1 ++ h2) = consumed_units h1 ++ consumed_units h2.
Proof. apply flat_map_app. Qed.

Lemma received_app h1 h2 : received (h1 ++ h2) = received h1 ++ received h2.
Proof. apply flat_map_app. Qed.

Lemma serviced_app h1 h2 : serviced (h1 ++ h2) = serviced h1 ++ serviced h2.
Proof. apply flat_map_app. Qed.

Lemma writes_app h1 h2 : writes (h1 ++ h2) = writes h1 ++ writes h2.
Proof. apply flat_map_app. Qed.

Lemma awaited_app h1 h2 : awaited (h1 ++ h2) = awaited h1 ++ awaited h2.
Proof. apply flat_map_app. Qed.

Lemma fruitful_polls_app h1 h2 :
  fruitful_polls (h1 ++ h2) = fruitful_polls h1 + fruitful_polls h2.
Proof. unfold fruitful_polls. now rewrite filter_app, length_app. Qed.

Lemma soft_reads_app h1 h2 : soft_reads (h1 ++ h2) = soft_reads h1 + soft_reads h2.
Proof. unfold soft_reads. now rewrite filter_app, length_app. Qed.

Lemma consumed_units_serviced (q : list Request) :
  consumed_units (map Serviced q) = [].
Proof. induction q; simpl; auto. Qed.

Lemma received_serviced (q : list Request) : received (map Serviced q) = [].
Proof. induction q; simpl; auto. Qed.

Lemma serviced_serviced (q : list Request) : serviced (map Serviced q) = q.
Proof. induction q; simpl; congruence. Qed.

Lemma fruitful_polls_serviced (q : list Request) :
  fruitful_polls (map Serviced q) = 0.
Proof. induction q; simpl; auto. Qed.

Lemma soft_reads_serviced (q : list Request) : soft_reads (map Serviced q) = 0.
Proof. induction q; simpl; auto. Qed.

End ObservationFacts.

Create Rewrite HintDb observe.
#[local] Hint Rewrite
  @consumed_units_app @received_app @serviced_app @fruitful_polls_app
  @soft_reads_app @writes_app @awaited_app
  @consumed_units_serviced @received_serviced @serviced_serviced
  @fruitful_polls_serviced @soft_reads_serviced
  @app_nil_r @length_app : observe.

Ltac observe := autorewrite with observe; simpl.

(** ** One pass of the loop *)

Section LoopFacts.

Context {W : Wire} {C : Type} {Conn : Connection C} {Request : Type}.
Variable service : Request -> C -> C.
Variable K : Type.
Variable output_consumer : bytes -> stream_name -> K -> K.
Variable stream : stream_name.

#[local] Abbreviation Frame := (Frame C Request K).
#[local] Abbreviation loop_body := (loop_body service output_consumer stream).
#[local] Abbreviation iterate := (iterate service output_consumer stream).
#[local] Abbreviation Pass := (Pass service output_consumer stream).
#[local] Abbreviation poll := (poll (K:=K) service).

(** Every pass takes one of the branches of [Pass]. *)
Lemma loop_body_Pass (f : Frame) : Pass f (loop_body f).
Proof.
  unfold loop_body.
  change (do_soft_read_until INCREMENTAL_OUTPUT_BLOCK_CLOSERS 50
            (check_for_side_commands service (self f))) with (poll f).
  destruct (poll f) as [d b2] eqn:Hpoll.
  destruct (is_empty d) eqn:Hd.
  - apply is_empty_true in Hd. subst d. now apply pass_idle.
  - apply is_empty_false in Hd.
    destruct (endswith (pending f ++ d) LF) eqn:Hlf.
    + destruct (consume _ _ _ _ _) as [b3 k] eqn:Hc. eapply pass_line; eauto.
    + destruct (endswith (pending f ++ d) NORMAL_PROMPT) eqn:Hp.
      * destruct (consume _ _ _ _ _) as [b3 k] eqn:Hc. eapply pass_prompt; eauto.
      * destruct (ends_overlap (pending f ++ d) NORMAL_PROMPT) eqn:Ho.
        -- destruct (do_soft_read 1 100 b2) as [u b3] eqn:Hr.
           destruct (is_empty u) eqn:Hu.
           ++ apply is_empty_true in Hu. subst u.
              destruct (consume _ _ _ _ _) as [b4 k] eqn:Hc.
              eapply pass_overlap_timeout; eauto.
           ++ apply is_empty_false in Hu. eapply pass_overlap_withheld; eauto.
        -- destruct (consume _ _ _ _ _) as [b3 k] eqn:Hc. eapply pass_plain; eauto.
Qed.

(** What the first two statements of a pass leave behind. *)
Lemma poll_spec (f : Frame) d b2 :
  poll f = (d, b2) ->
  history b2 =
    history (self f) ++ map Serviced (command_queue (self f)) ++ [SoftReadUntil d] /\
  command_queue b2 = hd [] (inbox (self f)) /\
  inbox b2 = tl (inbox (self f)) /\
  outbox b2 = outbox (self f) /\
  original_welcome_text b2 = original_welcome_text (self f).
Proof.
  unfold poll. intros H.
  apply do_soft_read_until_spec in H as (Hh & Hq & Hi & Ho & Hw).
  destruct (check_for_side_commands_spec service (self f))
    as (Hh' & Hq' & Hi' & Ho' & Hw').
  rewrite Hh, Hq, Hi, Ho, Hw, Hh', Hq', Hi', Ho', Hw'.
  rewrite <- app_assoc. auto.
Qed.

Lemma fruitful_poll_one (d : bytes) :
  d <> [] -> fruitful_polls [SoftReadUntil (Request:=Request) d] = 1.
Proof. destruct d; [congruence | reflexivity]. Qed.

(** [ends_overlap] holds exactly when the buffer ends with a non-empty
    proper prefix of the marker. *)
Lemma ends_overlap_iff (left right : bytes) :
  ends_overlap left right = true <->
  exists i, 1 <= i < length right /\ endswith left (firstn i right) = true.
Proof.
  unfold ends_overlap. rewrite existsb_exists. split.
  - intros (i & Hin & He). exists i. split; [|exact He].
    apply in_seq in Hin. lia.
  - intros (i & Hi & He). exists i. split; [|exact He].
    apply in_seq. lia.
Qed.

(** The overlap branch with a follow-up byte: whatever that byte is, the
    pass hands nothing over and goes on with the longer buffer. *)
Lemma follow_up_is_withheld (f : Frame) d b2 follow_up b3 :
  poll f = (d, b2) -> d <> [] ->
  endswith (pending f ++ d) LF = false ->
  endswith (pending f ++ d) NORMAL_PROMPT = false ->
  ends_overlap (pending f ++ d) NORMAL_PROMPT = true ->
  do_soft_read 1 100 b2 = (follow_up, b3) -> follow_up <> [] ->
  loop_body f = Continue (mkFrame b3 (sink f) ((pending f ++ d) ++ follow_up)).
Proof.
  intros Hpoll Hd Hlf Hp Ho Hr Hu. unfold loop_body.
  change (do_soft_read_until INCREMENTAL_OUTPUT_BLOCK_CLOSERS 50
            (check_for_side_commands service (self f))) with (poll f).
  rewrite Hpoll. apply is_empty_false in Hd, Hu.
  now rewrite Hd, Hlf, Hp, Ho, Hr, Hu.
Qed.

(** The accounts of a pass that continues: the events it adds, the bytes it
    took against the units it handed over and the buffer it keeps. *)
Lemma pass_continue (f f' : Frame) :
  Pass f (Continue f') ->
  exists es,
    history (self f') = history (self f) ++ es /\
    join (consumed_units es) ++ pending f' = pending f ++ received es /\
    length (consumed_units es) <= fruitful_polls es /\
    sink f' =
      fold_left (fun k u => output_consumer u stream k) (consumed_units es) (sink f) /\
    outbox (self f') = outbox (self f) /\
    original_welcome_text (self f') = original_welcome_text (self f).
Proof.
  intros HP. inversion HP; subst; clear HP;
    match goal with H : poll f = _ |- _ =>
      apply poll_spec in H as (Hh & _ & _ & Ho & Hw) end;
    try match goal with H : do_soft_read _ _ _ = _ |- _ =>
      apply do_soft_read_spec in H as (Hh' & _ & _ & Ho' & Hw') end;
    repeat match goal with H : consume _ _ _ _ _ = _ |- _ =>
      unfold consume in H; injection H as <- <- end;
    simpl; eexists; (split; [
      repeat match goal with H : history _ = _ |- _ => rewrite H; clear H end;
      rewrite <- ?app_assoc; reflexivity |]);
    observe; unfold join; simpl; observe;
    rewrite ?fruitful_poll_one by assumption;
    repeat split; try congruence; try lia.
  now rewrite app_assoc.
Qed.

(** The accounts of the pass that returns. *)
Lemma pass_return (f f' : Frame) (ret : bytes) :
  Pass f (Return ret f') ->
  exists es out,
    history (self f') = history (self f) ++ es ++ [Consumed out stream] /\
    consumed_units es = [] /\
    ret = NORMAL_PROMPT /\
    out = drop_last (pending f') (length NORMAL_PROMPT) /\
    pending f' = pending f ++ received es /\
    endswith (pending f') NORMAL_PROMPT = true /\
    fruitful_polls es = 1 /\
    sink f' = output_consumer out stream (sink f) /\
    outbox (self f') = outbox (self f) /\
    original_welcome_text (self f') = original_welcome_text (self f).
Proof.
  intros HP. inversion HP; subst; clear HP.
  match goal with H : poll f = _ |- _ =>
    apply poll_spec in H as (Hh & _ & _ & Ho & Hw) end.
  match goal with H : consume _ _ _ _ _ = _ |- _ =>
    unfold consume in H; injection H as <- <- end.
  simpl. do 2 eexists. split.
  - rewrite Hh. rewrite <- app_assoc. reflexivity.
  - observe. rewrite fruitful_poll_one by assumption.
    repeat split; auto. now rewrite app_nil_r.
Qed.

(** ** The whole loop *)

#[local] Abbreviation deliver :=
  (fun (k : K) (u : bytes) => output_consumer u stream k).

(** While the loop runs, the units handed over followed by the buffer are
    the bytes received, each unit was handed over once and in order, and no
    pass handed over more than one unit. *)
Lemma iterate_continue (fuel : nat) (f f' : Frame) :
  iterate fuel f = Continue f' ->
  exists es,
    history (self f') = history (self f) ++ es /\
    join (consumed_units es) ++ pending f' = pending f ++ received es /\
    length (consumed_units es) <= fruitful_polls es /\
    sink f' = fold_left deliver (consumed_units es) (sink f) /\
    outbox (self f') = outbox (self f) /\
    original_welcome_text (self f') = original_welcome_text (self f).
Proof.
  revert f. induction fuel as [|fuel IH]; intros f; simpl.
  - intros H. injection H as <-. exists []. simpl.
    rewrite !app_nil_r. repeat split; auto.
  - pose proof (loop_body_Pass f) as HP.
    destruct (loop_body f) as [f1|r f1]; [|discriminate].
    intros H. apply pass_continue in HP as (es1 & Hh1 & Hb1 & Hn1 & Hs1 & Ho1 & Hw1).
    apply IH in H as (es2 & Hh2 & Hb2 & Hn2 & Hs2 & Ho2 & Hw2).
    exists (es1 ++ es2). observe. unfold join in *.
    rewrite concat_app, fold_left_app, <- Hs1.
    repeat split; try congruence; try lia.
    + rewrite Hh2, Hh1. now rewrite app_assoc.
    + rewrite <- app_assoc, Hb2, app_assoc, Hb1. now rewrite app_assoc.
Qed.

(** When the loop returns, it hands over one last unit, the buffer without
    the prompt at its end. *)
Lemma iterate_return (fuel : nat) (f f' : Frame) (ret : bytes) :
  iterate fuel f = Return ret f' ->
  exists es out,
    history (self f') = history (self f) ++ es ++ [Consumed out stream] /\
    ret = NORMAL_PROMPT /\
    out = drop_last (pending f') (length NORMAL_PROMPT) /\
    endswith (pending f') NORMAL_PROMPT = true /\
    join (consumed_units es) ++ pending f' = pending f ++ received es /\
    length (consumed_units es) + 1 <= fruitful_polls es /\
    sink f' = output_consumer out stream (fold_left deliver (consumed_units es) (sink f)) /\
    outbox (self f') = outbox (self f) /\
    original_welcome_text (self f') = original_welcome_text (self f).
Proof.
  revert f. induction fuel as [|fuel IH]; intros f; simpl; [discriminate|].
  pose proof (loop_body_Pass f) as HP.
  destruct (loop_body f) as [f1|r f1].
  - intros H. apply pass_continue in HP as (es1 & Hh1 & Hb1 & Hn1 & Hs1 & Ho1 & Hw1).
    apply IH in H as (es2 & out & Hh2 & Hr & Hout & He & Hb2 & Hn2 & Hs2 & Ho2 & Hw2).
    exists (es1 ++ es2), out. observe. unfold join in *.
    rewrite concat_app, fold_left_app, <- Hs1.
    repeat split; try congruence; try lia.
    + rewrite Hh2, Hh1. now rewrite !app_assoc.
    + rewrite <- app_assoc, Hb2, app_assoc, Hb1. now rewrite app_assoc.
  - intros H. injection H as -> ->.
    apply pass_return in HP
      as (es & out & Hh & Hu & Hr & Hout & Hp & He & Hn & Hs & Ho & Hw).
    exists es, out. rewrite Hu. simpl. repeat split; auto; lia.
Qed.

(** C3 (as amended). The accounts of [_forward_output_until_active_prompt]
    after any number of passes, on any connection: the consumer was called
    once for each unit, in order, and no pass handed over more than one
    unit; while the loop runs, the units joined in order and followed by
    the buffer are exactly the bytes read, so nothing is duplicated or
    dropped; when the loop returns, its last act was to hand over one
    terminal unit, the buffer without the prompt marker at its end, and the
    units joined in order and followed by the marker are exactly the bytes
    read. *)
Theorem forward_accounts_for_every_byte (fuel : nat) (b : Backend C Request)
    (k : K) :
  NORMAL_PROMPT <> [] ->
  exists es,
    history (self (frame_of
       (forward_output_until_active_prompt service output_consumer stream
          fuel b k))) = history b ++ es /\
    sink (frame_of
       (forward_output_until_active_prompt service output_consumer stream
          fuel b k)) = fold_left deliver (consumed_units es) k /\
    length (consumed_units es) <= fruitful_polls es /\
    match forward_output_until_active_prompt service output_consumer stream
            fuel b k with
    | Continue f' => join (consumed_units es) ++ pending f' = received es
    | Return ret f' =>
        ret = NORMAL_PROMPT /\
        join (consumed_units es) ++ NORMAL_PROMPT = received es /\
        exists es0 terminal,
          es = es0 ++ [Consumed terminal stream] /\
          terminal ++ NORMAL_PROMPT = pending f' /\
          join (consumed_units es0) ++ pending f' = received es
    end.
Proof.
  intros Hne. unfold forward_output_until_active_prompt.
  destruct (iterate fuel (mkFrame b k [])) as [f'|ret f'] eqn:E.
  - apply iterate_continue in E as (es & Hh & Hb & Hn & Hs & _ & _).
    exists es. simpl in *. auto.
  - apply iterate_return in E
      as (es & out & Hh & Hr & Hout & He & Hb & Hn & Hs & _ & _).
    simpl in *. exists (es ++ [Consumed out stream]).
    assert (Hout' : out ++ NORMAL_PROMPT = pending f')
      by (subst out; now apply drop_last_marker).
    observe. rewrite fold_left_app. simpl.
    split; [exact Hh|]. split; [exact Hs|]. split; [lia|].
    split; [exact Hr|]. split.
    + unfold join in *. rewrite concat_app. simpl.
      now rewrite app_nil_r, <- app_assoc, Hout'.
    + exists es, out. auto.
Qed.

End LoopFacts.

(** ** The submission *)

Section ExecuteFacts.

Context {W : Wire} {C : Type} {Conn : Connection C} {Request : Type}.
Variable K : Type.
Variable output_consumer : bytes -> stream_name -> K -> K.
Implicit Type b : Backend C Request.

Ltac step_submit H :=
  match type of H with
  | context [do_write ?d ?b] =>
      let E := fresh "Hw" in
      destruct (do_write d b) as [[[]|?] ?] eqn:E;
      apply do_write_spec in E as (? & ? & ? & ?)
  | context [do_read_until ?m ?b] =>
      let E := fresh "Hr" in
      destruct (do_read_until m b) as [[?|?] ?] eqn:E;
      apply do_read_until_spec in E as (? & ? & ?)
  end.

Ltac chain_histories :=
  repeat match goal with
  | H : history ?x = _ |- context [history ?x] => rewrite H; clear H
  end.

(** A submission that gets its output back made exactly these calls. *)
Lemma submit_ok (script : bytes) b data b' :
  submit script b = (Ok data, b') ->
  exists r1 r2 r3,
    history b' = history b ++
      [ Written PASTE_MODE_CMD (Ok tt);
        ReadUntil PASTE_MODE_LINE_PREFIX (Ok r1);
        Written (script ++ SENTINEL) (Ok tt);
        ReadUntil SENTINEL (Ok r2);
        Written EOT (Ok tt);
        ReadUntil [x0a] (Ok r3);
        ReadUntil NORMAL_PROMPT (Ok data) ] /\
    outbox b' = outbox b /\
    exists arrived, command_queue b' = command_queue b ++ arrived.
Proof.
  unfold submit, and_then. intros H.
  repeat (step_submit H; try discriminate).
  injection H as -> ->.
  do 3 eexists. split; [|split].
  - chain_histories. rewrite <- !app_assoc. reflexivity.
  - congruence.
  - eexists.
    repeat match goal with
    | H : command_queue ?x = _ |- context [command_queue ?x] => rewrite H; clear H
    end.
    rewrite <- !app_assoc. reflexivity.
Qed.

(** What a submission raises is what its last call on the connection
    raised: the function raises nothing of its own. *)
Lemma submit_raised_origin (script : bytes) b e b' :
  submit script b = (Raised e, b') ->
  exists es ev, history b' = history b ++ es ++ [ev] /\ raised_by ev e.
Proof.
  intros H.
  assert (Hl : exists l, history b' = history b ++ l /\ l <> [] /\
                         raised_by (last l (SoftReadUntil [])) e).
  { unfold submit, and_then in H.
    repeat (step_submit H; try discriminate);
      injection H as -> ->;
      (eexists; split;
        [chain_histories; rewrite <- ?app_assoc; reflexivity
        | split; [discriminate | reflexivity]]). }
  destruct Hl as (l & Hh & Hne & Hev).
  exists (removelast l), (last l (SoftReadUntil [])).
  split; [|exact Hev].
  now rewrite <- (app_removelast_last (SoftReadUntil []) Hne).
Qed.

(** A submission that raises has handed nothing to the consumer. *)
Lemma submit_raised (script : bytes) b e b' :
  submit script b = (Raised e, b') ->
  exists es,
    history b' = history b ++ es /\
    consumed_units es = [] /\
    soft_reads es = 0 /\
    serviced es = [] /\
    outbox b' = outbox b.
Proof.
  unfold submit, and_then. intros H.
  repeat (step_submit H; try discriminate);
    injection H as -> ->;
    (eexists; split;
      [chain_histories; rewrite <- ?app_assoc; reflexivity
      | simpl; repeat split; congruence]).
Qed.

(** C4 (as amended). The token written after the command source is the
    fixed literal [#uuu]: a submission that completes wrote the paste-mode
    byte, the source followed by [#uuu], and the end-of-transmission byte,
    and waited for the banner prefix, for [#uuu], for a line feed and for
    the prompt.  The token does not depend on the submission. *)
Theorem sentinel_is_fixed_literal (script : bytes) b b' (k k' : K) :
  execute_with_consumer output_consumer script b k = (Ok tt, b', k') ->
  exists es,
    history b' = history b ++ es /\
    writes es = [PASTE_MODE_CMD; script ++ lit "#uuu"; EOT] /\
    awaited es = [PASTE_MODE_LINE_PREFIX; lit "#uuu"; [x0a]; NORMAL_PROMPT].
Proof.
  intros H. unfold execute_with_consumer in H.
  destruct (submit script b) as [[data|e] b1] eqn:Hsub; [|discriminate].
  unfold consume in H. injection H as <- <-.
  apply submit_ok in Hsub as (r1 & r2 & r3 & Hh & _ & _).
  eexists. simpl. rewrite Hh, <- app_assoc. split; [reflexivity|].
  split; reflexivity.
Qed.

(** C7 (as amended). After the acknowledgement of the end of transmission,
    [_execute_with_consumer] collects the output with one blocking
    [read_until] for the prompt marker and hands it to the consumer as a
    single [stdout] unit without the marker; it makes no soft read and
    services no side command, so the requests in the queue stay there. *)
Theorem output_collected_by_one_blocking_read (script : bytes) b b' (k k' : K) :
  execute_with_consumer output_consumer script b k = (Ok tt, b', k') ->
  exists es ack data arrived,
    history b' = history b ++ es ++
      [ ReadUntil [x0a] (Ok ack);
        ReadUntil NORMAL_PROMPT (Ok data);
        Consumed (drop_last data (length NORMAL_PROMPT)) stdout ] /\
    consumed_units es = [] /\
    soft_reads es = 0 /\
    serviced es = [] /\
    command_queue b' = command_queue b ++ arrived /\
    k' = output_consumer (drop_last data (length NORMAL_PROMPT)) stdout k.
Proof.
  intros H. unfold execute_with_consumer in H.
  destruct (submit script b) as [[data|e] b1] eqn:Hsub; [|discriminate].
  unfold consume in H. injection H as <- <-.
  apply submit_ok in Hsub as (r1 & r2 & r3 & Hh & _ & arrived & Hq).
  exists [ Written PASTE_MODE_CMD (Ok tt);
           ReadUntil PASTE_MODE_LINE_PREFIX (Ok r1);
           Written (script ++ SENTINEL) (Ok tt);
           ReadUntil SENTINEL (Ok r2);
           Written EOT (Ok tt) ], r3, data, arrived.
  simpl. rewrite Hh, <- app_assoc.
  split; [reflexivity|]. split; [reflexivity|]. split; [reflexivity|].
  split; [reflexivity|]. split; [exact Hq | reflexivity].
Qed.

(** X13. A submission that raises leaves the consumer untouched, and the
    error is the one its last call on the connection raised: the last event
    of the submission is a write or a hard read that raised it. *)
Lemma execute_raised (script : bytes) b b' (k k' : K) (e : Error) :
  execute_with_consumer output_consumer script b k = (Raised e, b', k') ->
  k' = k /\
  exists es ev,
    history b' = history b ++ es ++ [ev] /\
    consumed_units (es ++ [ev]) = [] /\
    raised_by ev e.
Proof.
  intros H. unfold execute_with_consumer in H.
  destruct (submit script b) as [[data|e0] b1] eqn:Hsub.
  - unfold consume in H. discriminate.
  - injection H as <- <- <-.
    destruct (submit_raised _ _ Hsub) as (es' & Hh' & Hu & _).
    apply submit_raised_origin in Hsub as (es & ev & Hh & Hev).
    split; [reflexivity|]. exists es, ev.
    split; [exact Hh|]. split; [|exact Hev].
    rewrite Hh in Hh'. apply app_inv_head in Hh'. now rewrite Hh'.
Qed.

End ExecuteFacts.

(** ** The prompt boundary *)

Section BoundaryFacts.

Context {W : Wire} {C : Type} {Conn : Connection C} {Request : Type}.
Variable service : Request -> C -> C.
Variable K : Type.
Variable output_consumer : bytes -> stream_name -> K -> K.
Variable stream : stream_name.

Implicit Type b : Backend C Request.



End BoundaryFacts.

(** ** Side commands *)

Section SideCommandFacts.

Context {W : Wire} {C : Type} {Conn : Connection C} {Request : Type}.
Variable service : Request -> C -> C.
Variable K : Type.
Variable output_consumer : bytes -> stream_name -> K -> K.
Variable stream : stream_name.

#[local] Abbreviation Frame := (Frame C Request K).
#[local] Abbreviation loop_body := (loop_body service output_consumer stream).
#[local] Abbreviation iterate := (iterate service output_consumer stream).
#[local] Abbreviation Pass := (Pass service output_consumer stream).
#[local] Abbreviation poll := (poll (K:=K) service).
#[local] Abbreviation idle_for := (idle_for (K:=K) service).

Lemma hd_tl_concat (A : Type) (l : list (list A)) :
  hd [] l ++ concat (tl l) = concat l.
Proof. destruct l; reflexivity. Qed.

(** A pass services the queue it finds, then reads; what arrives during its
    reads waits in the queue. *)
Lemma pass_services_first (f : Frame) (s : Step C Request K) :
  Pass f s ->
  exists d es,
    history (self (frame_of s)) =
      history (self f) ++ map Serviced (command_queue (self f))
        ++ SoftReadUntil d :: es /\
    serviced es = [] /\
    command_queue (self (frame_of s)) ++ concat (inbox (self (frame_of s)))
      = concat (inbox (self f)).
Proof.
  intros HP. inversion HP; subst; clear HP;
    match goal with H : poll f = _ |- _ =>
      apply poll_spec in H as (Hh & Hq & Hi & _ & _) end;
    try match goal with H : do_soft_read _ _ _ = _ |- _ =>
      apply do_soft_read_spec in H as (Hh' & Hq' & Hi' & _ & _) end;
    repeat match goal with H : consume _ _ _ _ _ = _ |- _ =>
      unfold consume in H; injection H as <- <- end;
    simpl; eexists _, _;
    (split; [
       repeat match goal with H : history _ = _ |- _ => rewrite H; clear H end;
       rewrite <- ?app_assoc; simpl; reflexivity |]);
    (split; [reflexivity|]);
    repeat match goal with
           | H : command_queue _ = _ |- _ => rewrite H; clear H
           | H : inbox _ = _ |- _ => rewrite H; clear H
           end;
    rewrite <- ?app_assoc, ?hd_tl_concat; reflexivity.
Qed.

Lemma idle_pass (f : Frame) :
  fst (poll f) = [] ->
  loop_body f = Continue (mkFrame (snd (poll f)) (sink f) (pending f)).
Proof.
  unfold loop_body.
  change (do_soft_read_until INCREMENTAL_OUTPUT_BLOCK_CLOSERS 50
            (check_for_side_commands service (self f))) with (poll f).
  destruct (poll f) as [d b2]. simpl. now intros ->.
Qed.

(** Over a silent device the loop keeps running and keeps checking: after
    [S m] passes it has serviced the queue it started with and everything
    that arrived during the first [m] polls, in order. *)
Lemma idle_passes (m : nat) (f : Frame) :
  idle_for (S m) f ->
  exists f' es,
    iterate (S m) f = Continue f' /\
    pending f' = pending f /\
    sink f' = sink f /\
    history (self f') = history (self f) ++ es /\
    consumed_units es = [] /\
    serviced es = command_queue (self f) ++ concat (firstn m (inbox (self f))) /\
    command_queue (self f') = nth m (inbox (self f)) [] /\
    inbox (self f') = skipn (S m) (inbox (self f)).
Proof.
  revert f. induction m as [|m IH]; intros f [Hd Hrest].
  - simpl. rewrite (idle_pass f Hd).
    destruct (poll f) as [d b2] eqn:Hpoll. simpl in Hd. subst d.
    apply poll_spec in Hpoll as (Hh & Hq & Hi & _ & _).
    eexists _, _. split; [reflexivity|]. simpl.
    rewrite Hh, Hq, Hi.
    repeat split; observe; try reflexivity; now destruct (inbox (self f)).
  - change (iterate (S (S m)) f) with
      (match loop_body f with
       | Continue f1 => iterate (S m) f1
       | Return r f1 => Return r f1
       end).
    rewrite (idle_pass f Hd).
    destruct (IH _ Hrest) as (f' & es & Hit & Hp & Hs & Hh & Hu & Hsv & Hq & Hi).
    destruct (poll f) as [d b2] eqn:Hpoll. simpl in *. subst d.
    apply poll_spec in Hpoll as (Hh1 & Hq1 & Hi1 & _ & _).
    exists f', (map Serviced (command_queue (self f)) ++ [SoftReadUntil []] ++ es).
    rewrite Hh, Hh1, Hq, Hi, Hi1. observe. rewrite Hu, Hsv, Hq1, Hi1.
    repeat split; auto.
    + now rewrite <- !app_assoc.
    + destruct (inbox (self f)); simpl; rewrite ?firstn_nil; reflexivity.
    + destruct (inbox (self f)); simpl; [now destruct m|reflexivity].
    + destruct (inbox (self f)); simpl; rewrite ?skipn_nil; reflexivity.
Qed.

(** C8 (as amended). Every request that is in the command queue when a
    pass of the read loop begins is serviced, in order, before the poll of
    that pass and so before anything the pass hands to the consumer; nothing
    is serviced later in the pass, so what arrives during its reads (the
    poll, or the follow-up read of the overlap branch) waits in the queue for
    the next pass, and no request leaves the queue unserviced.  Over a silent
    device the check still runs in every pass: after [S m] passes the loop
    is still running and has serviced the initial queue and all that arrived
    during the first [m] polls. *)
Theorem side_commands_checked_every_pass (f : Frame) :
  (exists d es,
     history (self (frame_of (loop_body f))) =
       history (self f) ++ map Serviced (command_queue (self f))
         ++ SoftReadUntil d :: es /\
     serviced es = [] /\
     command_queue (self (frame_of (loop_body f)))
         ++ concat (inbox (self (frame_of (loop_body f))))
       = concat (inbox (self f)))
  /\
  (forall m : nat,
     idle_for (S m) f ->
     exists f' es,
       iterate (S m) f = Continue f' /\
       pending f' = pending f /\
       sink f' = sink f /\
       history (self f') = history (self f) ++ es /\
       consumed_units es = [] /\
       serviced es = command_queue (self f) ++ concat (firstn m (inbox (self f))) /\
       command_queue (self f') = nth m (inbox (self f)) [] /\
       inbox (self f') = skipn (S m) (inbox (self f))).
Proof.
  split.
  - apply pass_services_first, loop_body_Pass.
  - intros m. apply idle_passes.
Qed.

End SideCommandFacts.

(** ** The callers of the read loop *)

(** The read loop does not touch [_welcome_text]. *)
Section WelcomeFacts.

Context {W : Wire} {C : Type} {Conn : Connection C} {Request : Type}.
Variable service : Request -> C -> C.
Variable K : Type.
Variable output_consumer : bytes -> stream_name -> K -> K.
Variable stream : stream_name.
Implicit Type b : Backend C Request.

Lemma suspend_welcome_text b : welcome_text (suspend b) = welcome_text b.
Proof. unfold suspend. now destruct (inbox b). Qed.

Lemma service_all_welcome_text (q : list Request) b :
  welcome_text (fold_left (service_one service) q b) = welcome_text b.
Proof.
  revert b. induction q as [|r q IH]; intros b; simpl; [reflexivity|].
  now rewrite IH.
Qed.

Lemma poll_welcome_text (f : Frame C Request K) d b2 :
  poll service f = (d, b2) -> welcome_text b2 = welcome_text (self f).
Proof.
  unfold poll, do_soft_read_until.
  destruct (soft_read_until _ _ _) as [d0 c].
  intros H. injection H as <- <-. simpl.
  rewrite suspend_welcome_text. simpl.
  unfold check_for_side_commands. now rewrite service_all_welcome_text.
Qed.

Lemma do_soft_read_welcome_text size timeout b d b' :
  do_soft_read size timeout b = (d, b') -> welcome_text b' = welcome_text b.
Proof.
  unfold do_soft_read. destruct (soft_read _ _ _) as [d0 c].
  intros H. injection H as <- <-. simpl. now rewrite suspend_welcome_text.
Qed.

Lemma pass_welcome_text (f : Frame C Request K) s :
  Pass service output_consumer stream f s ->
  welcome_text (self (frame_of s)) = welcome_text (self f).
Proof.
  intros HP. inversion HP; subst; clear HP;
    match goal with H : poll _ f = _ |- _ =>
      apply poll_welcome_text in H end;
    try match goal with H : do_soft_read _ _ _ = _ |- _ =>
      apply do_soft_read_welcome_text in H end;
    repeat match goal with H : consume _ _ _ _ _ = _ |- _ =>
      unfold consume in H; injection H as <- <- end;
    simpl; congruence.
Qed.

Lemma iterate_welcome_text (fuel : nat) (f : Frame C Request K) :
  welcome_text (self (frame_of (iterate service output_consumer stream fuel f)))
    = welcome_text (self f).
Proof.
  revert f. induction fuel as [|fuel IH]; intros f; simpl; [reflexivity|].
  pose proof (pass_welcome_text (loop_body_Pass service output_consumer stream f))
    as HP.
  destruct (loop_body service output_consumer stream f) as [f1|r f1];
    simpl in *; [now rewrite IH | exact HP].
Qed.

End WelcomeFacts.

Section CallerFacts.

Context {W : Wire} {C : Type} {Conn : Connection C} {Request : Type}.
Variable service : Request -> C -> C.
Variable tweak_welcome_text : Text.text -> Text.text.
Variable decode : bytes -> option Text.text.
Implicit Type b : Backend C Request.

Lemma collect_all (units output : list bytes) :
  fold_left (fun k u => collect_output u stdout k) units output = output ++ units.
Proof.
  revert output. induction units as [|u units IH]; intros output; simpl.
  - now rewrite app_nil_r.
  - rewrite IH. unfold collect_output. now rewrite <- app_assoc.
Qed.

Lemma send_all (units : list bytes) (o : list BackendEvent) :
  fold_left (fun k u => send_output u stdout k) units o
    = o ++ map (ProgramOutput stdout) units.
Proof.
  revert o. induction units as [|u units IH]; intros o; simpl.
  - now rewrite app_nil_r.
  - rewrite IH. unfold send_output. now rewrite <- app_assoc.
Qed.

(** What [_process_until_initial_prompt] has done after [fuel] passes of
    its read loop, whichever way it stands. *)
Lemma process_until_initial_prompt_spec (fuel : nat) b :
  NORMAL_PROMPT <> [] ->
  exists es,
    history (state_of (process_until_initial_prompt service
                         tweak_welcome_text decode fuel b)) = history b ++ es /\
    outbox (state_of (process_until_initial_prompt service
                        tweak_welcome_text decode fuel b)) = outbox b /\
    match process_until_initial_prompt service tweak_welcome_text decode
            fuel b with
    | Reading f =>
        sink f = consumed_units es /\
        join (consumed_units es) ++ pending f = received es /\
        original_welcome_text (self f) = original_welcome_text b /\
        welcome_text (self f) = welcome_text b
    | Undecodable b' =>
        join (consumed_units es) ++ NORMAL_PROMPT = received es /\
        decode (join (consumed_units es)) = None /\
        original_welcome_text b' = original_welcome_text b /\
        welcome_text b' = welcome_text b
    | Welcomed b' =>
        join (consumed_units es) ++ NORMAL_PROMPT = received es /\
        exists decoded,
          decode (join (consumed_units es)) = Some decoded /\
          original_welcome_text b'
            = Text.replace decoded [Text.CR; Text.NL] [Text.NL] /\
          welcome_text b' = tweak_welcome_text (original_welcome_text b')
    end.
Proof.
  intros Hne. unfold process_until_initial_prompt,
    forward_output_until_active_prompt.
  pose proof (iterate_welcome_text service collect_output stdout fuel
                (mkFrame b [] [])) as Hwt.
  destruct (iterate service collect_output stdout fuel (mkFrame b [] []))
    as [f|r f] eqn:E.
  - apply iterate_continue in E as (es & Hh & Hb & _ & Hs & Ho & Hw).
    simpl in *. exists es. rewrite collect_all in Hs. simpl in Hs.
    repeat split; assumption.
  - apply iterate_return in E
      as (es & out & Hh & Hr & Hout & He & Hb & Hn & Hs & Ho & Hw).
    simpl in *. exists (es ++ [Consumed out stdout]).
    rewrite collect_all in Hs. unfold collect_output in Hs. simpl in Hs.
    assert (Hu : consumed_units (es ++ [Consumed (Request:=Request) out stdout])
                 = sink f) by (observe; now rewrite Hs).
    assert (Hrt : join (sink f) ++ NORMAL_PROMPT
                  = received (es ++ [Consumed (Request:=Request) out stdout])).
    { observe. rewrite Hs. unfold join in *. rewrite concat_app. simpl.
      rewrite app_nil_r, <- app_assoc, <- Hb. f_equal. subst out.
      now apply drop_last_marker. }
    rewrite Hu.
    destruct (decode (join (sink f))) as [decoded|] eqn:D; simpl.
    + split; [exact Hh|]. split; [exact Ho|]. split; [exact Hrt|].
      exists decoded. auto.
    + repeat split; assumption.
Qed.

(** What [_cmd_Run] has done from its read loop on, after [fuel] passes. *)
Lemma cmd_Run_forward_spec (fuel : nat) b :
  NORMAL_PROMPT <> [] ->
  exists es,
    history (self (frame_of
       (forward_output_until_active_prompt service send_output stdout
          fuel b (outbox b)))) = history b ++ es /\
    sink (frame_of
       (forward_output_until_active_prompt service send_output stdout
          fuel b (outbox b)))
      = outbox b ++ map (ProgramOutput stdout) (consumed_units es) /\
    match cmd_Run_forward service fuel b with
    | None =>
        exists f,
          forward_output_until_active_prompt service send_output stdout
            fuel b (outbox b) = Continue f /\
          join (consumed_units es) ++ pending f = received es
    | Some b' =>
        history b' = history b ++ es /\
        join (consumed_units es) ++ NORMAL_PROMPT = received es /\
        outbox b' = outbox b
          ++ map (ProgramOutput stdout) (consumed_units es)
          ++ [HideTrailingOutput (original_welcome_text b)]
    end.
Proof.
  intros Hne. unfold cmd_Run_forward, forward_output_until_active_prompt.
  destruct (iterate service send_output stdout fuel (mkFrame b (outbox b) []))
    as [f|r f] eqn:E.
  - apply iterate_continue in E as (es & Hh & Hb & _ & Hs & Ho & Hw).
    simpl in *. exists es. rewrite send_all in Hs.
    split; [exact Hh|]. split; [exact Hs|]. exists f. auto.
  - apply iterate_return in E
      as (es & out & Hh & Hr & Hout & He & Hb & Hn & Hs & Ho & Hw).
    simpl in *. exists (es ++ [Consumed out stdout]).
    rewrite send_all in Hs. unfold send_output in Hs.
    rewrite Hw. observe. rewrite Hs, map_app. simpl.
    rewrite <- !app_assoc.
    split; [exact Hh|]. split; [reflexivity|].
    split; [exact Hh|]. split; [|reflexivity].
    unfold join in *. rewrite concat_app. simpl.
    rewrite app_nil_r, <- app_assoc, <- Hb. f_equal. subst out.
    now apply drop_last_marker.
Qed.

(** C9 (as amended). On attach, [_process_until_initial_prompt] sends
    nothing to the front end, whatever it reads and however far it gets.
    While its loop runs it only collects the units.  When the loop has
    returned, the units joined are the bytes read before the prompt; if they
    do not decode, the method raises and the welcome texts stay as they
    were; if they decode, the text with CR LF turned into LF is kept as the
    original welcome text, and its tweaked form as the welcome text.  On
    [Run], after the connection is replaced, every unit read is sent to the
    front end as [stdout] program output, in order, as the loop runs; when
    the loop has returned at the next prompt, a [HideTrailingOutput] message
    that carries the original welcome text follows. *)
Theorem banner_text_routing :
  NORMAL_PROMPT <> [] ->
  (forall (fuel : nat) b,
      exists es,
        history (state_of (process_until_initial_prompt service
                             tweak_welcome_text decode fuel b))
          = history b ++ es /\
        outbox (state_of (process_until_initial_prompt service
                            tweak_welcome_text decode fuel b)) = outbox b /\
        match process_until_initial_prompt service tweak_welcome_text decode
                fuel b with
        | Reading f =>
            sink f = consumed_units es /\
            join (consumed_units es) ++ pending f = received es /\
            original_welcome_text (self f) = original_welcome_text b /\
            welcome_text (self f) = welcome_text b
        | Undecodable b' =>
            join (consumed_units es) ++ NORMAL_PROMPT = received es /\
            decode (join (consumed_units es)) = None /\
            original_welcome_text b' = original_welcome_text b /\
            welcome_text b' = welcome_text b
        | Welcomed b' =>
            join (consumed_units es) ++ NORMAL_PROMPT = received es /\
            exists decoded,
              decode (join (consumed_units es)) = Some decoded /\
              original_welcome_text b'
                = Text.replace decoded [Text.CR; Text.NL] [Text.NL] /\
              welcome_text b' = tweak_welcome_text (original_welcome_text b')
        end)
  /\
  (forall (fuel : nat) b,
      exists es,
        history (self (frame_of
           (forward_output_until_active_prompt service send_output stdout
              fuel b (outbox b)))) = history b ++ es /\
        sink (frame_of
           (forward_output_until_active_prompt service send_output stdout
              fuel b (outbox b)))
          = outbox b ++ map (ProgramOutput stdout) (consumed_units es) /\
        match cmd_Run_forward service fuel b with
        | None =>
            exists f,
              forward_output_until_active_prompt service send_output stdout
                fuel b (outbox b) = Continue f /\
              join (consumed_units es) ++ pending f = received es
        | Some b' =>
            history b' = history b ++ es /\
            join (consumed_units es) ++ NORMAL_PROMPT = received es /\
            outbox b' = outbox b
              ++ map (ProgramOutput stdout) (consumed_units es)
              ++ [HideTrailingOutput (original_welcome_text b)]
        end).
Proof.
  intros Hne. split; intros fuel b.
  - now apply process_until_initial_prompt_spec.
  - now apply cmd_Run_forward_spec.
Qed.

End CallerFacts.

(** ** The code on concrete exchanges *)

Module Evaluation.
Import Scripted Scenario.

#[local] Existing Instance micropython.

(** A scripted device with nothing left to say, and no request around,
    stays silent. *)
Lemma exhausted_device_is_idle (n : nat) (f : Frame Conn SideCommand (list bytes)) :
  replies (connection (self f)) = [] ->
  command_queue (self f) = [] ->
  inbox (self f) = [] ->
  idle_for service n f.
Proof.
  revert f. induction n as [|n IH]; intros f Hr Hq Hi; simpl; [exact I|].
  destruct f as [[c q i h o w1 w2] k p]. simpl in *. subst q i.
  destruct c as [r s cl]. simpl in *. subst r.
  split; [reflexivity|]. apply IH; reflexivity.
Qed.

(** Once such a device is reached, the loop runs on with the same buffer
    and hands nothing more to the consumer. *)
Lemma exhausted_device_spins (n : nat) (f : Frame Conn SideCommand (list bytes)) :
  replies (connection (self f)) = [] ->
  command_queue (self f) = [] ->
  inbox (self f) = [] ->
  exists f', run n f = Continue f' /\ pending f' = pending f /\ sink f' = sink f.
Proof.
  intros Hr Hq Hi. destruct n as [|m].
  - exists f. repeat split.
  - destruct (@idle_passes micropython Conn _ SideCommand service (list bytes)
                collect_output stdout m f
                (exhausted_device_is_idle (S m) f Hr Hq Hi))
      as (f' & es & Hrun & Hp & Hs & _).
    exists f'. auto.
Qed.

Ltac first_pass :=
  unfold run; cbn [iterate];
  match goal with
  | |- context [loop_body ?sv ?oc ?st ?f] =>
      let s := fresh "s" in
      set (s := loop_body sv oc st f); vm_compute in s; subst s; cbv beta iota
  end.

(** C1 (the code at the failing input). The prompt arrives as [>>>] at the
    timeout of the poll and its last byte within the follow-up read; the
    device then waits for input.  The buffer now is the full prompt marker,
    yet however long the loop runs it does not return and hands nothing to
    the consumer. *)
Theorem completed_prompt_never_reported (fuel : nat) :
  exists f,
    run (S fuel) (start split_prompt) = Continue f /\
    pending f = NORMAL_PROMPT /\
    endswith (pending f) NORMAL_PROMPT = true /\
    sink f = [].
Proof.
  first_pass.
  match goal with |- context [iterate _ _ _ fuel ?f1] =>
    destruct (exhausted_device_spins fuel f1 eq_refl eq_refl eq_refl)
      as (f' & Hrun & Hp & Hs)
  end.
  exists f'. unfold run in Hrun. rewrite Hrun, Hp, Hs. repeat split.
Qed.

(** C2 (the code at the failing input). With the same arrival the pass that
    receives the last byte of the marker goes on to the next pass instead
    of returning: the buffer is the full marker and nothing was handed over.
    When the device later prints a line, the marker is handed to the consumer
    as output in front of that line, and the loop still has not returned. *)
Theorem completed_prompt_not_classified :
  (exists f,
     pass (start split_prompt) = Continue f /\
     pending f = NORMAL_PROMPT /\
     consumed_units (history (self f)) = []) /\
  (exists f,
     run 2 (start split_prompt_then_line) = Continue f /\
     sink f = [NORMAL_PROMPT ++ lit "x
"] /\
     pending f = []).
Proof.
  split; eexists; (split; [vm_compute; reflexivity|]); split; reflexivity.
Qed.

(** C5 (the code at the failing input). Output ending with [>] is followed,
    within the follow-up read, by a byte that does not continue the prompt;
    the device then falls silent.  However long the loop runs, the three
    bytes stay in the buffer and nothing is handed to the consumer. *)
Theorem unrelated_follow_up_withheld (fuel : nat) :
  exists f,
    run (S fuel) (start overlap_then_other) = Continue f /\
    pending f = lit "x>y" /\
    sink f = [].
Proof.
  first_pass.
  match goal with |- context [iterate _ _ _ fuel ?f1] =>
    destruct (exhausted_device_spins fuel f1 eq_refl eq_refl eq_refl)
      as (f' & Hrun & Hp & Hs)
  end.
  exists f'. unfold run in Hrun. rewrite Hrun, Hp, Hs. repeat split.
Qed.

(** C6 (the code at the failing input). The device enters paste mode and
    then echoes only [pri]: the wait for [#uuu] times out.  What the
    submission raises is the connection's [TimeoutError], not a
    [ProtocolError]; the consumer is not called. *)
Theorem missing_echo_raises_timeout :
  fst (fst (submit_to (lit "print(1)") [] no_echo))
    = Raised (TimeoutError (lit "pri")) /\
  (forall observed,
     fst (fst (submit_to (lit "print(1)") [] no_echo))
       <> Raised (ProtocolError observed)) /\
  snd (submit_to (lit "print(1)") [] no_echo) = [] /\
  consumed_units (history (backend_of (submit_to (lit "print(1)") [] no_echo))) = [].
Proof.
  split; [reflexivity|]. split; [intros observed; discriminate|].
  split; reflexivity.
Qed.

(** C4 (counterexample). Two different submissions wait for the same token,
    each wrote its source followed by that token, and a source may hold the
    token. *)
Lemma sentinel_repeats :
  lit "print(1)" <> lit "print(2)" /\
  awaited_token (after_echo (lit "print(1)"))
    = awaited_token (after_echo (lit "print(2)")) /\
  payload_written (after_echo (lit "print(1)"))
    = lit "print(1)" ++ awaited_token (after_echo (lit "print(1)")) /\
  contains (lit "x = 1 #uuu") (awaited_token (after_echo (lit "x = 1 #uuu")))
    = true.
Proof.
  split; [discriminate|]. repeat split; reflexivity.
Qed.

(** C7 (counterexample). A submission made while an interrupt is waiting in
    the command queue: the output is taken by hard reads only, the last of
    them for the prompt marker, no soft read is made, and the interrupt is
    still in the queue at the end.  The read loop on the same output services
    it before its first poll. *)
Lemma collection_is_one_hard_read :
  fst (fst interrupted_submission) = Ok tt /\
  soft_reads (history (backend_of interrupted_submission)) = 0 /\
  last (awaited (history (backend_of interrupted_submission))) [] = NORMAL_PROMPT /\
  serviced (history (backend_of interrupted_submission)) = [] /\
  command_queue (backend_of interrupted_submission) = [Interrupt] /\
  hd_error (history (self (frame_of
      (run 2 (start_with_arrivals printed_one [Interrupt] [])))))
    = Some (Serviced Interrupt).
Proof. repeat split; reflexivity. Qed.

(** C8 (counterexample). An interrupt arrives while the poll is waiting; the
    poll returns [>>], an overlap.  The pass then makes the follow-up read
    and, as it times out, hands [>>] to the consumer, all with the interrupt
    waiting in the queue: it was not serviced before the next read attempt
    nor before the next unit. *)
Lemma follow_up_read_precedes_servicing :
  command_queue (snd (poll service interrupt_during_poll)) = [Interrupt] /\
  history (self (frame_of (pass interrupt_during_poll))) =
    [SoftReadUntil (lit ">>"); SoftRead 1 []; Consumed (lit ">>") stdout] /\
  command_queue (self (frame_of (pass interrupt_during_poll))) = [Interrupt].
Proof. repeat split; reflexivity. Qed.

(** C3 (counterexample). Units are not bounded by line feeds: [a] and [b]
    arrive one after the other without a line feed and neither ends with
    part of the prompt, so each is handed over on its own; then the prompt
    arrives.  Three units were handed over and no line feed was read. *)
Lemma units_outnumber_line_feeds :
  run 3 (start trickle)
    = Return NORMAL_PROMPT (frame_of (run 3 (start trickle))) /\
  sink (frame_of (run 3 (start trickle))) = [lit "a"; lit "b"; []] /\
  consumed_units (history (self (frame_of (run 3 (start trickle)))))
    = [lit "a"; lit "b"; []] /\
  received (history (self (frame_of (run 3 (start trickle)))))
    = lit "ab>>> " /\
  count_byte x0a (received (history (self (frame_of (run 3 (start trickle))))))
    = 0.
Proof. vm_compute. repeat split. Qed.

(** C9 (counterexample). On [Run], the boot text of the new interpreter is
    sent to the front end as [stdout] program output. *)
Lemma run_forwards_boot_text :
  option_map (@outbox Conn SideCommand)
    (cmd_Run_forward service 2 (attach banner)) =
  Some [ ProgramOutput stdout (lit "MicroPython v1.12 on linux
");
         ProgramOutput stdout [];
         HideTrailingOutput [] ].
Proof. reflexivity. Qed.

(** *** The theorems at concrete inputs *)

Lemma forward_accounts_for_every_byte_witness :
  NORMAL_PROMPT <> [] /\
  forward_output_until_active_prompt service collect_output stdout 2
      (attach printed_one) []
    = Return NORMAL_PROMPT (frame_of (run 2 (start printed_one))) /\
  exists es,
    history (self (frame_of
       (forward_output_until_active_prompt service collect_output stdout
          2 (attach printed_one) []))) = history (attach printed_one) ++ es /\
    sink (frame_of
       (forward_output_until_active_prompt service collect_output stdout
          2 (attach printed_one) []))
      = fold_left (fun k u => collect_output u stdout k) (consumed_units es) [] /\
    length (consumed_units es) <= fruitful_polls es /\
    match forward_output_until_active_prompt service collect_output stdout
            2 (attach printed_one) [] with
    | Continue f' => join (consumed_units es) ++ pending f' = received es
    | Return ret f' =>
        ret = NORMAL_PROMPT /\
        join (consumed_units es) ++ NORMAL_PROMPT = received es /\
        exists es0 terminal,
          es = es0 ++ [Consumed terminal stdout] /\
          terminal ++ NORMAL_PROMPT = pending f' /\
          join (consumed_units es0) ++ pending f' = received es
    end.
Proof.
  split; [discriminate|]. split; [vm_compute; reflexivity|].
  apply (@forward_accounts_for_every_byte micropython Conn _ SideCommand
           service (list bytes) collect_output stdout 2 (attach printed_one) []).
  discriminate.
Defined.


Lemma side_commands_checked_every_pass_witness :
  idle_for service 2 waiting_requests /\
  exists f' es,
    run 2 waiting_requests = Continue f' /\
    pending f' = [] /\
    sink f' = [] /\
    history (self f') = [] ++ es /\
    consumed_units es = [] /\
    serviced es = [Interrupt; InputSubmission (lit "y")] /\
    command_queue (self f') = [] /\
    inbox (self f') = [].
Proof.
  assert (Hidle : idle_for service 2 waiting_requests)
    by (split; [reflexivity | split; [reflexivity | exact I]]).
  split; [exact Hidle|].
  exact (proj2 (@side_commands_checked_every_pass micropython Conn _ SideCommand
                  service (list bytes) collect_output stdout waiting_requests)
               1 Hidle).
Defined.

Lemma sentinel_is_fixed_literal_witness :
  submit_to (lit "print(1)") [] (echoing (lit "print(1)") [])
    = (Ok tt, after_echo (lit "print(1)"),
       snd (submit_to (lit "print(1)") [] (echoing (lit "print(1)") []))) /\
  exists es,
    history (after_echo (lit "print(1)")) = [] ++ es /\
    writes es = [PASTE_MODE_CMD; lit "print(1)" ++ lit "#uuu"; EOT] /\
    awaited es = [PASTE_MODE_LINE_PREFIX; lit "#uuu"; [x0a]; NORMAL_PROMPT].
Proof.
  split; [vm_compute; reflexivity|].
  apply (@sentinel_is_fixed_literal micropython Conn _ SideCommand (list bytes)
           collect_output (lit "print(1)")
           (backend_with [] (echoing (lit "print(1)") []))
           (after_echo (lit "print(1)")) []
           (snd (submit_to (lit "print(1)") [] (echoing (lit "print(1)") [])))).
  vm_compute. reflexivity.
Defined.

Lemma output_collected_by_one_blocking_read_witness :
  interrupted_submission
    = (Ok tt, backend_of interrupted_submission, snd interrupted_submission) /\
  exists es ack data arrived,
    history (backend_of interrupted_submission) = [] ++ es ++
      [ ReadUntil [x0a] (Ok ack);
        ReadUntil NORMAL_PROMPT (Ok data);
        Consumed (drop_last data (length NORMAL_PROMPT)) stdout ] /\
    consumed_units es = [] /\
    soft_reads es = 0 /\
    serviced es = [] /\
    command_queue (backend_of interrupted_submission) = [Interrupt] ++ arrived /\
    snd interrupted_submission
      = collect_output (drop_last data (length NORMAL_PROMPT)) stdout [].
Proof.
  split; [vm_compute; reflexivity|].
  apply (@output_collected_by_one_blocking_read micropython Conn _ SideCommand
           (list bytes) collect_output (lit "print(1)")
           (backend_with [Interrupt] (echoing (lit "print(1)") (lit "1
")))
           (backend_of interrupted_submission) [] (snd interrupted_submission)).
  vm_compute. reflexivity.
Defined.

Lemma banner_text_routing_witness :
  NORMAL_PROMPT <> [] /\
  process_until_initial_prompt service (fun text => text) Utf8.decode 2
      (attach banner) = Welcomed attached /\
  (exists es,
     history attached = history (attach banner) ++ es /\
     outbox attached = outbox (attach banner) /\
     join (consumed_units es) ++ NORMAL_PROMPT = received es /\
     exists decoded,
       Utf8.decode (join (consumed_units es)) = Some decoded /\
       original_welcome_text attached
         = Text.replace decoded [Text.CR; Text.NL] [Text.NL] /\
       welcome_text attached = original_welcome_text attached) /\
  process_until_initial_prompt service (fun text => text) Utf8.decode 2
      (attach latin_banner) = Undecodable attached_latin /\
  (exists es,
     history attached_latin = history (attach latin_banner) ++ es /\
     outbox attached_latin = outbox (attach latin_banner) /\
     join (consumed_units es) ++ NORMAL_PROMPT = received es /\
     Utf8.decode (join (consumed_units es)) = None /\
     original_welcome_text attached_latin
       = original_welcome_text (attach latin_banner) /\
     welcome_text attached_latin = welcome_text (attach latin_banner)) /\
  cmd_Run_forward service 2 (attach banner) = Some restarted /\
  (exists es,
     history (self (frame_of
        (forward_output_until_active_prompt service send_output stdout
           2 (attach banner) (outbox (attach banner)))))
       = history (attach banner) ++ es /\
     sink (frame_of
        (forward_output_until_active_prompt service send_output stdout
           2 (attach banner) (outbox (attach banner))))
       = outbox (attach banner)
           ++ map (ProgramOutput stdout) (consumed_units es) /\
     history restarted = history (attach banner) ++ es /\
     join (consumed_units es) ++ NORMAL_PROMPT = received es /\
     outbox restarted = outbox (attach banner)
       ++ map (ProgramOutput stdout) (consumed_units es)
       ++ [HideTrailingOutput (original_welcome_text (attach banner))]).
Proof.
  destruct (@banner_text_routing micropython Conn _ SideCommand service
              (fun text => text) Utf8.decode) as [Hattach Hrun];
    [discriminate|].
  split; [discriminate|].
  split; [vm_compute; reflexivity|]. split.
  { destruct (Hattach 2 (attach banner)) as (es & Hh & Ho & H).
    exists es. split; [exact Hh|]. split; [exact Ho|]. exact H. }
  split; [vm_compute; reflexivity|]. split.
  { destruct (Hattach 2 (attach latin_banner)) as (es & Hh & Ho & H).
    exists es. split; [exact Hh|]. split; [exact Ho|]. exact H. }
  split; [vm_compute; reflexivity|].
  destruct (Hrun 2 (attach banner)) as (es & Hh & Hs & H).
  exists es. split; [exact Hh|]. split; [exact Hs|]. exact H.
Defined.

End Evaluation.

(** * Further properties *)

(** ** More observations over a growing history *)

Section MoreObservationFacts.

Context {Request : Type}.
Implicit Type h : list (Event Request).

Lemma polls_app h1 h2 : polls (h1 ++ h2) = polls h1 + polls h2.
Proof. unfold polls. now rewrite filter_app, length_app. Qed.

Lemma follow_ups_app h1 h2 : follow_ups (h1 ++ h2) = follow_ups h1 ++ follow_ups h2.
Proof. apply flat_map_app. Qed.

Lemma ok_reads_app h1 h2 : ok_reads (h1 ++ h2) = ok_reads h1 + ok_reads h2.
Proof. unfold ok_reads. now rewrite filter_app, length_app. Qed.

Lemma polls_serviced (q : list Request) : polls (map Serviced q) = 0.
Proof. induction q; simpl; auto. Qed.

Lemma follow_ups_serviced (q : list Request) : follow_ups (map Serviced q) = [].
Proof. induction q; simpl; auto. Qed.

Lemma writes_serviced (q : list Request) : writes (map Serviced q) = [].
Proof. induction q; simpl; auto. Qed.

Lemma awaited_serviced (q : list Request) : awaited (map Serviced q) = [].
Proof. induction q; simpl; auto. Qed.

End MoreObservationFacts.

#[local] Hint Rewrite
  @polls_app @follow_ups_app @ok_reads_app
  @polls_serviced @follow_ups_serviced @writes_serviced @awaited_serviced
  : observe.

(** ** More about the read loop *)

Section LoopReads.

Context {W : Wire} {C : Type} {Conn : Connection C} {Request : Type}.
Variable service : Request -> C -> C.
Variable K : Type.
Variable output_consumer : bytes -> stream_name -> K -> K.
Variable stream : stream_name.

#[local] Abbreviation Frame := (Frame C Request K).
#[local] Abbreviation loop_body := (loop_body service output_consumer stream).
#[local] Abbreviation iterate := (iterate service output_consumer stream).
#[local] Abbreviation Pass := (Pass service output_consumer stream).
#[local] Abbreviation poll := (poll (K:=K) service).

(** The reads of one pass: one poll, then at most one follow-up read, of
    one byte, and only after a poll that returned data; no hard read and no
    write. *)
Lemma pass_reads (f : Frame) (s : Step C Request K) :
  Pass f s ->
  exists es,
    history (self (frame_of s)) = history (self f) ++ es /\
    polls es = 1 /\
    fruitful_polls es <= 1 /\
    length (follow_ups es) <= fruitful_polls es /\
    Forall (eq 1) (follow_ups es) /\
    awaited es = [] /\
    writes es = [].
Proof.
  intros HP. inversion HP; subst; clear HP;
    match goal with H : poll f = _ |- _ =>
      apply poll_spec in H as (Hh & _ & _ & _ & _) end;
    try match goal with H : do_soft_read _ _ _ = _ |- _ =>
      apply do_soft_read_spec in H as (Hh' & _ & _ & _ & _) end;
    repeat match goal with H : consume _ _ _ _ _ = _ |- _ =>
      unfold consume in H; injection H as <- <- end;
    simpl; eexists; (split; [
      repeat match goal with H : history _ = _ |- _ => rewrite H; clear H end;
      rewrite <- ?app_assoc; reflexivity |]);
    observe; rewrite ?fruitful_poll_one by assumption;
    repeat split; auto; try lia.
Qed.

(** What one pass hands over: nothing, and then the buffer grew by what was
    read; or one unit, which is the whole buffer with what was read, is not
    empty, and leaves the buffer empty. *)
Lemma pass_unit (f f' : Frame) :
  Pass f (Continue f') ->
  exists es,
    history (self f') = history (self f) ++ es /\
    ((consumed_units es = [] /\ pending f' = pending f ++ received es) \/
     (consumed_units es = [pending f ++ received es] /\
      pending f ++ received es <> [] /\
      pending f' = [])).
Proof.
  intros HP. inversion HP; subst; clear HP;
    match goal with H : poll f = _ |- _ =>
      apply poll_spec in H as (Hh & _ & _ & _ & _) end;
    try match goal with H : do_soft_read _ _ _ = _ |- _ =>
      apply do_soft_read_spec in H as (Hh' & _ & _ & _ & _) end;
    repeat match goal with H : consume _ _ _ _ _ = _ |- _ =>
      unfold consume in H; injection H as <- <- end;
    simpl; eexists; (split; [
      repeat match goal with H : history _ = _ |- _ => rewrite H; clear H end;
      rewrite <- ?app_assoc; reflexivity |]);
    observe.
  all: try solve [left; split; [reflexivity|];
               rewrite ?app_nil_r, ?app_assoc; reflexivity].
  all: right; rewrite ?app_nil_r; repeat split;
    intros E; apply app_eq_nil in E; tauto.
Qed.

(** X1. The read loop only ever makes soft reads.  In any run it makes one
    poll per pass, so at most [fuel] polls; every follow-up read asks for a
    single byte, and there is at most one of them for each poll that returned
    data; it makes no hard read and writes nothing itself. *)
Theorem read_loop_reads_are_bounded (fuel : nat) (f : Frame) :
  exists es,
    history (self (frame_of (iterate fuel f))) = history (self f) ++ es /\
    polls es <= fuel /\
    (forall f', iterate fuel f = Continue f' -> polls es = fuel) /\
    fruitful_polls es <= polls es /\
    length (follow_ups es) <= fruitful_polls es /\
    Forall (eq 1) (follow_ups es) /\
    awaited es = [] /\
    writes es = [].
Proof.
  revert f. induction fuel as [|fuel IH]; intros f.
  - exists []. simpl. rewrite app_nil_r. repeat split; auto.
  - simpl. pose proof (loop_body_Pass service output_consumer stream f) as HP.
    apply pass_reads in HP as (es1 & Hh1 & Hp1 & Hf1 & Hu1 & Ho1 & Ha1 & Hw1).
    destruct (loop_body f) as [f1|r f1]; simpl in Hh1.
    + destruct (IH f1) as (es2 & Hh2 & Hp2 & Hc2 & Hf2 & Hu2 & Ho2 & Ha2 & Hw2).
      exists (es1 ++ es2). observe. rewrite Hh2, Hh1, Ha1, Ha2, Hw1, Hw2.
      repeat split; auto; try lia.
      * now rewrite app_assoc.
      * intros f' E. specialize (Hc2 f' E). lia.
      * apply Forall_app. now split.
    + exists es1. simpl. repeat split; auto; try lia. discriminate.
Qed.

(** X2. A pass of the read loop that goes on hands over at most one unit,
    and a unit is never a part of the buffer: it is everything that was
    pending with everything the pass read, it is not empty, and the next pass
    starts from an empty buffer.  A pass that hands over nothing keeps all of
    it in the buffer. *)
Theorem a_pass_flushes_the_whole_buffer (f f' : Frame) :
  loop_body f = Continue f' ->
  exists es,
    history (self f') = history (self f) ++ es /\
    ((consumed_units es = [] /\ pending f' = pending f ++ received es) \/
     (consumed_units es = [pending f ++ received es] /\
      pending f ++ received es <> [] /\
      pending f' = [])).
Proof.
  intros H. apply pass_unit. rewrite <- H. apply loop_body_Pass.
Qed.

(** The units of a run that is still going are not empty. *)
Lemma running_units_nonempty (fuel : nat) (f f' : Frame) :
  iterate fuel f = Continue f' ->
  exists es,
    history (self f') = history (self f) ++ es /\
    Forall (fun u => u <> []) (consumed_units es).
Proof.
  revert f. induction fuel as [|fuel IH]; intros f; simpl.
  - intros H. injection H as <-. exists []. simpl. now rewrite app_nil_r.
  - pose proof (loop_body_Pass service output_consumer stream f) as HP.
    destruct (loop_body f) as [f1|r f1]; [|discriminate].
    intros H. apply pass_unit in HP as (es1 & Hh1 & Hu1).
    apply IH in H as (es2 & Hh2 & Hu2).
    exists (es1 ++ es2). observe. split.
    + rewrite Hh2, Hh1. now rewrite app_assoc.
    + apply Forall_app. split; [|exact Hu2].
      destruct Hu1 as [[-> _] | (-> & Hne & _)]; auto.
Qed.

(** The units of a run that returns, the terminal one apart, are not
    empty. *)
Lemma returning_units_nonempty (fuel : nat) (f f' : Frame) (ret : bytes) :
  iterate fuel f = Return ret f' ->
  exists es terminal,
    history (self f') = history (self f) ++ es ++ [Consumed terminal stream] /\
    Forall (fun u => u <> []) (consumed_units es).
Proof.
  revert f. induction fuel as [|fuel IH]; intros f; simpl; [discriminate|].
  pose proof (loop_body_Pass service output_consumer stream f) as HP.
  destruct (loop_body f) as [f1|r f1].
  - intros H. apply pass_unit in HP as (es1 & Hh1 & Hu1).
    apply IH in H as (es2 & terminal & Hh2 & Hu2).
    exists (es1 ++ es2), terminal. observe. split.
    + rewrite Hh2, Hh1. now rewrite !app_assoc.
    + apply Forall_app. split; [|exact Hu2].
      destruct Hu1 as [[-> _] | (-> & Hne & _)]; auto.
  - intros H. injection H as -> ->.
    apply pass_return in HP as (es & out & Hh & Hu & _).
    exists es, out. split; [exact Hh|]. rewrite Hu. constructor.
Qed.

(** X3. When the read loop returns, every unit it handed to the consumer
    before the terminal one is non-empty: the consumer can receive an empty
    chunk only as the last one, at the prompt. *)
Theorem only_the_terminal_unit_can_be_empty (fuel : nat)
    (b : Backend C Request) (k : K) (ret : bytes) (f' : Frame) :
  forward_output_until_active_prompt service output_consumer stream fuel b k
    = Return ret f' ->
  exists es terminal,
    history (self f') = history b ++ es ++ [Consumed terminal stream] /\
    consumed_units (es ++ [Consumed terminal stream])
      = consumed_units es ++ [terminal] /\
    Forall (fun u => u <> []) (consumed_units es).
Proof.
  intros H. unfold forward_output_until_active_prompt in H.
  apply returning_units_nonempty in H as (es & terminal & Hh & Hu).
  exists es, terminal. observe. auto.
Qed.

(** X4. The read loop neither loses nor repeats a request: after any run,
    the requests it serviced, followed by those waiting in the command queue
    and those still to arrive, are the requests that were waiting or still to
    arrive when it started, in the same order. *)
Theorem requests_are_conserved (fuel : nat) (f : Frame) :
  exists es,
    history (self (frame_of (iterate fuel f))) = history (self f) ++ es /\
    serviced es
      ++ command_queue (self (frame_of (iterate fuel f)))
      ++ concat (inbox (self (frame_of (iterate fuel f))))
    = command_queue (self f) ++ concat (inbox (self f)).
Proof.
  revert f. induction fuel as [|fuel IH]; intros f.
  - exists []. simpl. now rewrite app_nil_r.
  - simpl. pose proof (loop_body_Pass service output_consumer stream f) as HP.
    apply pass_services_first in HP as (d & es1 & Hh1 & Hs1 & Hq1).
    destruct (loop_body f) as [f1|r f1]; simpl in Hh1, Hq1.
    + destruct (IH f1) as (es2 & Hh2 & Hq2).
      exists ((map Serviced (command_queue (self f)) ++ SoftReadUntil d :: es1) ++ es2).
      split.
      * rewrite Hh2, Hh1. now rewrite !app_assoc.
      * observe. rewrite Hs1. simpl.
        rewrite app_nil_r, <- app_assoc, Hq2, Hq1. reflexivity.
    + exists (map Serviced (command_queue (self f)) ++ SoftReadUntil d :: es1).
      simpl. split; [exact Hh1|].
      observe. rewrite Hs1. simpl. now rewrite app_nil_r, Hq1.
Qed.

(** X5. While the read loop is running, nothing it read is lost or
    reordered: the units handed to the consumer so far, joined in order and
    followed by the buffer, are exactly the bytes read so far; the consumer
    was called once per unit, in that order; and the loop itself sent nothing
    to the front end. *)
Theorem running_loop_loses_nothing (fuel : nat)
    (b : Backend C Request) (k : K) (f' : Frame) :
  forward_output_until_active_prompt service output_consumer stream fuel b k
    = Continue f' ->
  exists es,
    history (self f') = history b ++ es /\
    join (consumed_units es) ++ pending f' = received es /\
    sink f' =
      fold_left (fun k u => output_consumer u stream k) (consumed_units es) k /\
    outbox (self f') = outbox b.
Proof.
  intros H. unfold forward_output_until_active_prompt in H.
  apply iterate_continue in H as (es & Hh & Hb & _ & Hs & Ho & _).
  exists es. simpl in *. auto.
Qed.

End LoopReads.

(** ** The read loop on a device that sends whole chunks *)

Section ChunkForwarding.

Import Scripted.

Context {W : Wire}.

#[local] Abbreviation Frame := (Frame Conn SideCommand (list bytes)).
#[local] Abbreviation loop_body := (loop_body service collect_output stdout).
#[local] Abbreviation iterate := (iterate service collect_output stdout).

(** A frame of the loop with an empty buffer, no request around and
    [script] left on the device. *)
#[local] Abbreviation at_rest script snt cl h o w1 w2 k :=
  (mkFrame (mkBackend (mkConn script snt cl) [] [] h o w1 w2) k []).

Lemma pass_on_chunk (c : bytes) script snt cl h o w1 w2 (k : list bytes) :
  flushes_at_once c = true ->
  loop_body (at_rest (Arrives c :: script) snt cl h o w1 w2 k)
  = Continue (at_rest script snt cl
                ((h ++ [SoftReadUntil c]) ++ [Consumed c stdout]) o w1 w2
                (k ++ [c])).
Proof.
  unfold flushes_at_once. intros H.
  apply andb_true_iff in H as [Hne H].
  apply negb_true_iff in Hne.
  unfold loop_body, check_for_side_commands, do_soft_read_until. simpl.
  rewrite Hne.
  destruct (endswith c LF) eqn:Hlf; [reflexivity|].
  simpl in H. apply andb_true_iff in H as [Hp Ho].
  apply negb_true_iff in Hp, Ho. now rewrite Hp, Ho.
Qed.

Lemma pass_on_prompt (tail : bytes) script snt cl h o w1 w2 (k : list bytes) :
  NORMAL_PROMPT <> [] ->
  endswith (tail ++ NORMAL_PROMPT) LF = false ->
  loop_body (at_rest (Arrives (tail ++ NORMAL_PROMPT) :: script) snt cl h o w1 w2 k)
  = Return NORMAL_PROMPT
      (mkFrame
         (mkBackend (mkConn script snt cl) [] []
            ((h ++ [SoftReadUntil (tail ++ NORMAL_PROMPT)])
               ++ [Consumed tail stdout]) o w1 w2)
         (k ++ [tail]) (tail ++ NORMAL_PROMPT)).
Proof.
  intros Hne Hlf.
  unfold loop_body, check_for_side_commands, do_soft_read_until. simpl.
  assert (He : is_empty (tail ++ NORMAL_PROMPT) = false).
  { apply is_empty_false. intros E. apply app_eq_nil in E. tauto. }
  rewrite He, Hlf, endswith_app, drop_last_app by assumption. reflexivity.
Qed.

Lemma chunks_then_prompt (chunks : list bytes) (tail : bytes)
    snt cl h o w1 w2 (k : list bytes) :
  NORMAL_PROMPT <> [] ->
  forallb flushes_at_once chunks = true ->
  endswith (tail ++ NORMAL_PROMPT) LF = false ->
  exists f,
    iterate (S (length chunks))
      (at_rest (map Arrives chunks ++ [Arrives (tail ++ NORMAL_PROMPT)])
         snt cl h o w1 w2 k)
    = Return NORMAL_PROMPT f /\
    sink f = k ++ chunks ++ [tail] /\
    pending f = tail ++ NORMAL_PROMPT /\
    consumed_units (history (self f)) = consumed_units h ++ chunks ++ [tail].
Proof.
  intros Hne Hall Hlf. revert h k Hall.
  induction chunks as [|c chunks IH]; intros h k Hall.
  - simpl. rewrite pass_on_prompt by assumption.
    eexists. split; [reflexivity|]. simpl. observe. auto.
  - simpl in Hall. apply andb_true_iff in Hall as [Hc Hall].
    change (iterate (S (length (c :: chunks))) ?f) with
      (match loop_body f with
       | Continue f1 => iterate (S (length chunks)) f1
       | Return r f1 => Return r f1
       end).
    simpl map. simpl app. rewrite (pass_on_chunk _ _ _ _ _ _ _ _ _ Hc).
    destruct (IH ((h ++ [SoftReadUntil c]) ++ [Consumed c stdout]) (k ++ [c]) Hall)
      as (f & Hrun & Hs & Hp & Hu).
    exists f. split; [exact Hrun|]. rewrite Hs, Hp, Hu. observe.
    rewrite <- !app_assoc. auto.
Qed.

(** X6. Output that arrives in chunks which end with the line feed, or which
    neither end with the prompt nor overlap it, is forwarded chunk by chunk:
    when such chunks are followed by a chunk that ends with the prompt (and
    the device then prompts), the loop returns after one pass per chunk, and
    the consumer has received exactly the chunks, in order, and then the text
    before the prompt. *)
Theorem chunks_are_forwarded_as_they_arrive (chunks : list bytes) (tail : bytes) :
  NORMAL_PROMPT <> [] ->
  forallb flushes_at_once chunks = true ->
  endswith (tail ++ NORMAL_PROMPT) LF = false ->
  exists f,
    iterate (S (length chunks))
      (Scenario.start (map Arrives chunks ++ [Arrives (tail ++ NORMAL_PROMPT)]))
    = Return NORMAL_PROMPT f /\
    sink f = chunks ++ [tail] /\
    consumed_units (history (self f)) = chunks ++ [tail].
Proof.
  intros Hne Hall Hlf.
  destruct (chunks_then_prompt chunks tail [] false [] [] [] [] [] Hne Hall Hlf)
    as (f & Hrun & Hs & _ & Hu).
  exists f. auto.
Qed.

End ChunkForwarding.

(** ** More about the submission *)

Ltac submit_step H :=
  match type of H with
  | context [do_write ?d ?b] =>
      let E := fresh "Hw" in
      destruct (do_write d b) as [[[]|?] ?] eqn:E;
      apply do_write_spec in E as (? & _ & _ & _)
  | context [do_read_until ?m ?b] =>
      let E := fresh "Hr" in
      destruct (do_read_until m b) as [[?|?] ?] eqn:E;
      apply do_read_until_spec in E as (? & _ & _)
  end.

Ltac join_histories :=
  repeat match goal with
  | H : history ?x = _ |- context [history ?x] => rewrite H; clear H
  end;
  rewrite <- ?app_assoc.

Section SubmissionOrder.

Context {W : Wire} {C : Type} {Conn : Connection C} {Request : Type}.
Variable K : Type.
Variable output_consumer : bytes -> stream_name -> K -> K.
Implicit Type b : Backend C Request.

(** The calls of a submission, whatever its outcome. *)
Lemma submit_calls (script : bytes) b res b' :
  submit script b = (res, b') ->
  exists es,
    history b' = history b ++ es /\
    (exists rest,
       writes es ++ rest = [PASTE_MODE_CMD; script ++ SENTINEL; EOT]) /\
    (exists rest,
       awaited es ++ rest
         = [PASTE_MODE_LINE_PREFIX; SENTINEL; [x0a]; NORMAL_PROMPT]) /\
    length (writes es) <= S (ok_reads es) /\
    ok_reads es <= length (awaited es) /\
    (ok_reads es = 4 <-> exists data, res = Ok data) /\
    consumed_units es = [] /\
    soft_reads es = 0 /\
    serviced es = [].
Proof.
  unfold submit, and_then. intros H.
  repeat (submit_step H; try discriminate);
    injection H as <- <-;
    (eexists; split; [join_histories; reflexivity|]);
    simpl;
    (split; [eexists; reflexivity|]);
    (split; [eexists; reflexivity|]);
    unfold ok_reads; simpl;
    (split; [lia|]); (split; [lia|]);
    (split; [split; [try discriminate; intros _; eexists; reflexivity
                    | try reflexivity; intros [data Hd]; discriminate]|]);
    auto.
Qed.

Lemma ok_reads_then_consumed (es : list (Event Request)) d st :
  ok_reads (es ++ [Consumed d st]) = ok_reads es.
Proof. rewrite ok_reads_app. unfold ok_reads. simpl. lia. Qed.

(** X7. A submission never writes ahead of the device.  Whatever its
    outcome, the bytes it wrote are an initial part of: the paste-mode byte,
    the script with the token, the end-of-transmission byte; each write after
    the first was made only after one more hard read had returned; the
    consumer was called only when all four reads returned, and then the
    submission succeeded; and no soft read was made and no side command
    serviced. *)
Theorem submission_never_writes_ahead (script : bytes) b b' (k k' : K)
    (res : Result unit) :
  execute_with_consumer output_consumer script b k = (res, b', k') ->
  exists es,
    history b' = history b ++ es /\
    (exists rest,
       writes es ++ rest = [PASTE_MODE_CMD; script ++ SENTINEL; EOT]) /\
    (exists rest,
       awaited es ++ rest
         = [PASTE_MODE_LINE_PREFIX; SENTINEL; [x0a]; NORMAL_PROMPT]) /\
    length (writes es) <= S (ok_reads es) /\
    ok_reads es <= length (awaited es) /\
    (consumed_units es <> [] -> ok_reads es = 4 /\ res = Ok tt) /\
    (res = Ok tt -> length (consumed_units es) = 1) /\
    soft_reads es = 0 /\
    serviced es = [].
Proof.
  intros H. unfold execute_with_consumer in H.
  destruct (submit script b) as [r b1] eqn:Hsub.
  apply submit_calls in Hsub
    as (es & Hh & Hw & Ha & Hn & Hm & Hok & Hu & Hs & Hv).
  destruct r as [data|e].
  - unfold consume in H. injection H as <- <- <-.
    exists (es ++ [Consumed (drop_last data (length NORMAL_PROMPT)) stdout]).
    rewrite ok_reads_then_consumed.
    simpl. observe. rewrite Hh, Hu, Hs, Hv. simpl.
    split; [now rewrite app_assoc|].
    split; [exact Hw|]. split; [exact Ha|].
    split; [lia|]. split; [lia|].
    split; [intros _; split; [apply Hok; now exists data | reflexivity]|].
    auto.
  - injection H as <- <- <-. exists es.
    split; [exact Hh|]. split; [exact Hw|]. split; [exact Ha|].
    split; [exact Hn|]. split; [exact Hm|].
    rewrite Hu. split; [congruence|]. split; [discriminate|]. auto.
Qed.

End SubmissionOrder.

(** ** Line endings of the welcome text *)

Lemma replace_without_occurrence (fuel : nat) (s old new : Text.text) :
  Text.contains s old = false -> Text.replace_fuel fuel s old new = s.
Proof.
  revert s. induction fuel as [|fuel IH]; intros s H; simpl; [reflexivity|].
  destruct s as [|x s]; [reflexivity|].
  simpl in H. apply orb_false_iff in H as [Hs Hc].
  change (Text.startswith (x :: s) old) with
    (match old with
     | [] => true
     | p :: old' => N.eqb p x && Text.startswith s old'
     end) in *.
  destruct old as [|p old']; [discriminate|].
  rewrite Hs. f_equal. now apply IH.
Qed.

(** Replacing CR LF by LF takes away carriage returns and nothing else. *)
Lemma replace_crlf (fuel : nat) (s : Text.text) :
  length s <= fuel ->
  filter (fun x => negb (N.eqb x Text.CR))
      (Text.replace_fuel fuel s [Text.CR; Text.NL] [Text.NL])
    = filter (fun x => negb (N.eqb x Text.CR)) s /\
  length (Text.replace_fuel fuel s [Text.CR; Text.NL] [Text.NL]) <= length s.
Proof.
  revert s. induction fuel as [|fuel IH]; intros s Hlen; simpl.
  - split; [reflexivity | lia].
  - destruct s as [|x s]; [split; [reflexivity | simpl; lia]|].
    simpl in Hlen.
    destruct (Text.startswith (x :: s) [Text.CR; Text.NL]) eqn:E.
    + cbn [Text.startswith] in E. apply andb_true_iff in E as [Ex E].
      destruct s as [|y s]; [discriminate|].
      apply andb_true_iff in E as [Ey _].
      apply N.eqb_eq in Ex, Ey. subst x y. simpl in Hlen.
      destruct (IH s ltac:(lia)) as [Hf Hl].
      cbn [skipn length app filter]. rewrite Hf.
      change (negb (N.eqb Text.CR Text.CR)) with false.
      split; [reflexivity | simpl; lia].
    + destruct (IH s ltac:(lia)) as [Hf Hl].
      cbn [filter length]. rewrite Hf. split; [reflexivity | lia].
Qed.

Section WelcomeText.

Context {W : Wire} {C : Type} {Conn : Connection C} {Request : Type}.
Variable service : Request -> C -> C.
Variable tweak_welcome_text : Text.text -> Text.text.
Variable decode : bytes -> option Text.text.
Implicit Type b : Backend C Request.

(** X8. The welcome text kept on attach is the decoded text that was read
    before the first prompt, with carriage returns taken away and nothing
    else changed: without its carriage returns it equals the decoded text
    without its carriage returns, it is not longer than the decoded text,
    and it is the decoded text when that holds no CR LF pair; the welcome
    text is its tweaked form.  When the bytes read before the prompt do not
    decode, or the first prompt has not been seen, both texts are what they
    were. *)
Theorem welcome_text_drops_only_carriage_returns (fuel : nat) b :
  NORMAL_PROMPT <> [] ->
  match process_until_initial_prompt service tweak_welcome_text decode
          fuel b with
  | Welcomed b' =>
      exists es raw decoded,
        history b' = history b ++ es /\
        received es = raw ++ NORMAL_PROMPT /\
        decode raw = Some decoded /\
        filter (fun x => negb (N.eqb x Text.CR)) (original_welcome_text b')
          = filter (fun x => negb (N.eqb x Text.CR)) decoded /\
        length (original_welcome_text b') <= length decoded /\
        (Text.contains decoded [Text.CR; Text.NL] = false ->
           original_welcome_text b' = decoded) /\
        welcome_text b' = tweak_welcome_text (original_welcome_text b')
  | Undecodable b' =>
      (exists es raw,
         history b' = history b ++ es /\
         received es = raw ++ NORMAL_PROMPT /\
         decode raw = None) /\
      original_welcome_text b' = original_welcome_text b /\
      welcome_text b' = welcome_text b
  | Reading f =>
      original_welcome_text (self f) = original_welcome_text b /\
      welcome_text (self f) = welcome_text b
  end.
Proof.
  intros Hne.
  destruct (process_until_initial_prompt_spec service tweak_welcome_text
              decode fuel b Hne) as (es & Hh & _ & H).
  destruct (process_until_initial_prompt _ _ _ _ _) as [f|b'|b']; simpl in Hh.
  - tauto.
  - destruct H as (Hr & Hd & Ho & Hw). split; [|tauto].
    exists es, (join (consumed_units es)). auto.
  - destruct H as (Hr & decoded & Hd & Ho & Hw).
    exists es, (join (consumed_units es)), decoded.
    split; [exact Hh|]. split; [now symmetry|]. split; [exact Hd|].
    rewrite Ho. unfold Text.replace.
    destruct (@replace_crlf (length decoded) decoded (le_n _)) as [Hf Hl].
    split; [exact Hf|]. split; [exact Hl|]. split; [|now rewrite Hw, Ho].
    intros Hc. now apply replace_without_occurrence.
Qed.

End WelcomeText.

(** ** Output between commands, start-up and commands *)

Lemma startswith_app (p rest : bytes) : startswith (p ++ rest) p = true.
Proof.
  induction p as [|x p IH]; simpl; [now destruct rest|].
  rewrite IH. now rewrite (byte_dec_lb (eq_refl x)).
Qed.

Lemma endswith_last (a h : bytes) (x y : byte) :
  endswith (a ++ [x]) (h ++ [y]) = true -> x = y.
Proof.
  intros H. apply endswith_iff in H as [pre E].
  rewrite app_assoc in E. now apply app_inj_tail in E.
Qed.

Section BetweenCommands.

Context {W : Wire} {C : Type} {Conn : Connection C} {Request : Type}.
Variable read_all : C -> bytes * C.
Implicit Type b : Backend C Request.

(** X9. [_forward_unexpected_output] sends at most one message, on
    [stdout]: nothing when nothing was waiting on the connection; the data
    without the prompt when the data ends with the prompt (an empty chunk
    when the data is the prompt alone); the data as it is otherwise.  It
    leaves the command queue and the history alone. *)
Theorem unexpected_output_loses_only_the_prompt b (data : bytes) (c : C) :
  NORMAL_PROMPT <> [] ->
  read_all (connection b) = (data, c) ->
  connection (forward_unexpected_output read_all b) = c /\
  command_queue (forward_unexpected_output read_all b) = command_queue b /\
  history (forward_unexpected_output read_all b) = history b /\
  ((data = [] /\ outbox (forward_unexpected_output read_all b) = outbox b) \/
   (exists out,
      outbox (forward_unexpected_output read_all b)
        = outbox b ++ [ProgramOutput stdout out] /\
      ((endswith data NORMAL_PROMPT = true /\ out ++ NORMAL_PROMPT = data) \/
       (endswith data NORMAL_PROMPT = false /\ data <> [] /\ out = data)))).
Proof.
  intros Hne Hread. unfold forward_unexpected_output. rewrite Hread.
  destruct (endswith data NORMAL_PROMPT) eqn:He.
  - simpl. repeat split. right. eexists. split; [reflexivity|].
    left. split; [reflexivity|]. now apply drop_last_marker.
  - destruct (is_empty data) eqn:Hd; simpl.
    + apply is_empty_true in Hd. repeat split. now left.
    + apply is_empty_false in Hd. repeat split. right.
      eexists. split; [reflexivity|]. right. auto.
Qed.

End BetweenCommands.

Section StartUp.

Context {C : Type}.
Variable which : bytes -> option bytes.
Variable create_connection : list bytes -> Result C.

(** X10. [_resolve_executable] returns only a non-empty path, the one
    [_which] found.  Otherwise it raises [ConnectionFailedException] with a
    message that begins by naming the executable and that ends with the hint
    about the absolute path exactly when the name does not start with [/];
    [__init__] then raises nothing and does not try to connect: whatever
    [_create_connection] would do, it writes one [stderr] message, the text
    between two line feeds. *)
Theorem missing_executable_is_reported (executable : bytes) :
  (forall path,
     resolve_executable which executable = Ok path ->
     path <> [] /\ which executable = Some path) /\
  (forall e,
     resolve_executable which executable = Raised e ->
     exists msg,
       e = ConnectionFailedException msg /\
       startswith msg (lit "Executable '" ++ executable) = true /\
       endswith msg NOT_FOUND_HINT = negb (startswith executable (lit "/")) /\
       init which create_connection executable
         = Reported (ProgramOutput stderr ([x0a] ++ msg ++ [x0a]))) /\
  (forall msg,
     init which create_connection executable
       <> Propagated (ConnectionFailedException msg)).
Proof.
  split; [|split].
  - unfold resolve_executable. intros path H.
    destruct (which executable) as [[|x p]|]; try discriminate.
    injection H as <-. split; [discriminate | reflexivity].
  - unfold init. intros e H. rewrite H. clear create_connection.
    unfold resolve_executable in H.
    assert (He : e = ConnectionFailedException
              (if negb (startswith executable (lit "/"))
               then (lit "Executable '" ++ executable
                       ++ lit "' not found. Please check your configuration!")
                      ++ NOT_FOUND_HINT
               else lit "Executable '" ++ executable
                      ++ lit "' not found. Please check your configuration!")).
    { destruct (which executable) as [[|x p]|]; try discriminate;
        now injection H as <-. }
    subst e. eexists. split; [reflexivity|]. split; [|split; [|reflexivity]].
    + destruct (negb (startswith executable (lit "/")));
        rewrite ?app_assoc; rewrite <- ?app_assoc;
        rewrite (app_assoc (lit "Executable '") executable);
        apply startswith_app.
    + destruct (negb (startswith executable (lit "/"))).
      * apply endswith_app.
      * destruct (endswith _ NOT_FOUND_HINT) eqn:E; [|reflexivity].
        exfalso.
        change (lit "' not found. Please check your configuration!") with
          (lit "' not found. Please check your configuration" ++ [x21]) in E.
        change NOT_FOUND_HINT with
          (lit " You may need to provide its absolute path" ++ [x2e]) in E.
        rewrite !app_assoc in E. apply endswith_last in E. discriminate.
  - intros msg. unfold init.
    destruct (resolve_executable which executable) as [exe|e].
    + destruct (create_connection []) as [c|e]; [discriminate|].
      destruct e; simpl; discriminate.
    + destruct e; simpl; discriminate.
Qed.

End StartUp.

Section Commands.

Context {W : Wire} {C : Type} {Conn : Connection C} {Request : Type}.
Variable create_connection : list bytes -> Result C.
Variable send_argument_warning :
  list bytes -> Backend C Request -> Backend C Request.
Implicit Type b : Backend C Request.

(** X11. The arguments of the interpreter on [Run].  With a source and no
    argument at all, [args[0]] raises [IndexError].  When [Run] succeeds, the
    new connection was created either from the arguments of the command as
    they are, or, when there is a source and the first argument is [-c],
    from exactly [-c] and the source: the other arguments are not passed
    on. *)
Theorem run_arguments (cmd : RunCommand) b :
  (truthy (source cmd) = true -> args cmd = [] ->
   cmd_Run_connect create_connection send_argument_warning cmd b
     = Raised IndexError) /\
  (forall b',
     cmd_Run_connect create_connection send_argument_warning cmd b = Ok b' ->
     exists run_args,
       create_connection run_args = Ok (connection b') /\
       ((run_args = args cmd /\
         (truthy (source cmd) = false \/
          exists a0 rest, args cmd = a0 :: rest /\ a0 <> lit "-c")) \/
        (exists src rest,
           source cmd = Some src /\ src <> [] /\
           args cmd = lit "-c" :: rest /\
           run_args = [lit "-c"; src]))).
Proof.
  unfold cmd_Run_connect. split.
  - intros Ht Ha. now rewrite Ht, Ha.
  - intros b'. destruct (truthy (source cmd)) eqn:Ht.
    + destruct (args cmd) as [|a0 rest] eqn:Ha; [discriminate|].
      destruct (source cmd) as [src|] eqn:Hs; [|discriminate].
      destruct (eqb a0 (lit "-c")) eqn:Ea.
      * apply eqb_eq in Ea. subst a0.
        destruct (create_connection [lit "-c"; src]) as [c|e] eqn:Hc;
          [|discriminate].
        intros H. injection H as <-. exists [lit "-c"; src].
        split; [exact Hc|]. right. exists src, rest.
        repeat split. destruct src; [discriminate Ht | discriminate].
      * destruct (create_connection (a0 :: rest)) as [c|e] eqn:Hc;
          [|discriminate].
        intros H. injection H as <-. exists (a0 :: rest).
        split; [exact Hc|]. left. split; [reflexivity|]. right.
        exists a0, rest. split; [reflexivity|].
        intros E. apply eqb_eq in E. congruence.
    + destruct (create_connection (args cmd)) as [c|e] eqn:Hc; [|discriminate].
      intros H. injection H as <-. exists (args cmd).
      split; [exact Hc|]. left. auto.
Qed.

End Commands.

Section FileSystemInfo.

Variable split_fields : bytes -> list bytes.
Variable int_of : bytes -> option Z.

(** X12. The file system figures.  [_cmd_get_fs_info] gives a result only
    when the output has exactly four fields and all are numbers.  Then all
    three figures are multiples of the block size, [free] is computed from
    the available blocks and [used] from the free blocks, so [used] and
    [free] fall short of [total] by the blocks that are free but not
    available; they never exceed [total] when the available blocks are no
    more than the free blocks. *)
Theorem fs_info_figures (out : bytes) :
  (length (split_fields out) <> 4 ->
   fs_info_of_output split_fields int_of out = None) /\
  (forall info,
     fs_info_of_output split_fields int_of out = Some info ->
     exists total free available block_size,
       map int_of (split_fields out)
         = [Some total; Some free; Some available; Some block_size] /\
       fs_total info = (total * block_size)%Z /\
       fs_free info = (available * block_size)%Z /\
       fs_used info = ((total - free) * block_size)%Z /\
       (fs_used info + fs_free info
          = fs_total info - (free - available) * block_size)%Z /\
       ((0 <= block_size)%Z -> (available <= free)%Z ->
        (fs_used info + fs_free info <= fs_total info)%Z)).
Proof.
  unfold fs_info_of_output. split.
  - intros Hlen. rewrite <- (length_map int_of) in Hlen.
    destruct (map int_of (split_fields out))
      as [|[t|] [|[f|] [|[a|] [|[s|] [|x l]]]]]; try reflexivity.
    simpl in Hlen. congruence.
  - intros info H.
    destruct (map int_of (split_fields out))
      as [|[t|] [|[f|] [|[a|] [|[s|] [|x l]]]]]; try discriminate.
    injection H as <-. exists t, f, a, s. simpl.
    repeat split; try reflexivity; [ring|].
    intros Hs Ha. nia.
Qed.

End FileSystemInfo.

(** ** The further theorems at concrete inputs *)

Module MoreEvaluation.
Import Scripted Scenario MoreScenario.

#[local] Existing Instance micropython.

Lemma read_loop_reads_are_bounded_witness :
  exists es,
    history (self (frame_of (run 3 (start split_prompt)))) = [] ++ es /\
    polls es <= 3 /\
    (forall f', run 3 (start split_prompt) = Continue f' -> polls es = 3) /\
    fruitful_polls es <= polls es /\
    length (follow_ups es) <= fruitful_polls es /\
    Forall (eq 1) (follow_ups es) /\
    awaited es = [] /\
    writes es = [].
Proof.
  exact (@read_loop_reads_are_bounded micropython Conn _ SideCommand service
           (list bytes) collect_output stdout 3 (start split_prompt)).
Defined.

Lemma a_pass_flushes_the_whole_buffer_witness :
  pass (start printed_one) = Continue (frame_of (pass (start printed_one))) /\
  exists es,
    history (self (frame_of (pass (start printed_one)))) = [] ++ es /\
    ((consumed_units es = [] /\
      pending (frame_of (pass (start printed_one))) = [] ++ received es) \/
     (consumed_units es = [[] ++ received es] /\
      [] ++ received es <> [] /\
      pending (frame_of (pass (start printed_one))) = [])).
Proof.
  split; [vm_compute; reflexivity|].
  apply (@a_pass_flushes_the_whole_buffer micropython Conn _ SideCommand service
           (list bytes) collect_output stdout (start printed_one)
           (frame_of (pass (start printed_one)))).
  vm_compute. reflexivity.
Defined.

Lemma only_the_terminal_unit_can_be_empty_witness :
  forward_output_until_active_prompt service collect_output stdout 2
      (attach printed_one) []
    = Return NORMAL_PROMPT (frame_of (run 2 (start printed_one))) /\
  exists es terminal,
    history (self (frame_of (run 2 (start printed_one))))
      = history (attach printed_one) ++ es ++ [Consumed terminal stdout] /\
    consumed_units (es ++ [Consumed terminal stdout])
      = consumed_units es ++ [terminal] /\
    Forall (fun u => u <> []) (consumed_units es).
Proof.
  split; [vm_compute; reflexivity|].
  apply (@only_the_terminal_unit_can_be_empty micropython Conn _ SideCommand
           service (list bytes) collect_output stdout 2 (attach printed_one) []
           NORMAL_PROMPT (frame_of (run 2 (start printed_one)))).
  vm_compute. reflexivity.
Defined.

Lemma running_loop_loses_nothing_witness :
  forward_output_until_active_prompt service collect_output stdout 3
      (attach overlap_then_other) []
    = Continue (frame_of (run 3 (start overlap_then_other))) /\
  exists es,
    history (self (frame_of (run 3 (start overlap_then_other))))
      = history (attach overlap_then_other) ++ es /\
    join (consumed_units es) ++ pending (frame_of (run 3 (start overlap_then_other)))
      = received es /\
    sink (frame_of (run 3 (start overlap_then_other)))
      = fold_left (fun k u => collect_output u stdout k) (consumed_units es) [] /\
    outbox (self (frame_of (run 3 (start overlap_then_other))))
      = outbox (attach overlap_then_other).
Proof.
  split; [vm_compute; reflexivity|].
  apply (@running_loop_loses_nothing micropython Conn _ SideCommand service
           (list bytes) collect_output stdout 3 (attach overlap_then_other) []
           (frame_of (run 3 (start overlap_then_other)))).
  vm_compute. reflexivity.
Defined.

Lemma chunks_are_forwarded_as_they_arrive_witness :
  NORMAL_PROMPT <> [] /\
  forallb flushes_at_once two_chunks = true /\
  endswith (lit "c" ++ NORMAL_PROMPT) LF = false /\
  exists f,
    iterate service collect_output stdout (S (length two_chunks))
      (start (map Arrives two_chunks ++ [Arrives (lit "c" ++ NORMAL_PROMPT)]))
    = Return NORMAL_PROMPT f /\
    sink f = two_chunks ++ [lit "c"] /\
    consumed_units (history (self f)) = two_chunks ++ [lit "c"].
Proof.
  split; [discriminate|]. split; [vm_compute; reflexivity|].
  split; [vm_compute; reflexivity|].
  apply (@chunks_are_forwarded_as_they_arrive micropython two_chunks (lit "c"));
    [discriminate | vm_compute; reflexivity | vm_compute; reflexivity].
Defined.

Lemma submission_never_writes_ahead_witness :
  submit_to (lit "print(1)") [] no_echo
    = (Raised (TimeoutError (lit "pri")),
       backend_of (submit_to (lit "print(1)") [] no_echo), []) /\
  exists es,
    history (backend_of (submit_to (lit "print(1)") [] no_echo))
      = history (backend_with [] no_echo) ++ es /\
    (exists rest,
       writes es ++ rest = [PASTE_MODE_CMD; lit "print(1)" ++ SENTINEL; EOT]) /\
    (exists rest,
       awaited es ++ rest
         = [PASTE_MODE_LINE_PREFIX; SENTINEL; [x0a]; NORMAL_PROMPT]) /\
    length (writes es) <= S (ok_reads es) /\
    ok_reads es <= length (awaited es) /\
    (consumed_units es <> [] ->
     ok_reads es = 4 /\ Raised (TimeoutError (lit "pri")) = Ok tt) /\
    (Raised (TimeoutError (lit "pri")) = Ok tt ->
     length (consumed_units es) = 1) /\
    soft_reads es = 0 /\
    serviced es = [].
Proof.
  split; [vm_compute; reflexivity|].
  apply (@submission_never_writes_ahead micropython Conn _ SideCommand
           (list bytes) collect_output (lit "print(1)")
           (backend_with [] no_echo)
           (backend_of (submit_to (lit "print(1)") [] no_echo)) [] []
           (Raised (TimeoutError (lit "pri")))).
  vm_compute. reflexivity.
Defined.

Lemma execute_raised_witness :
  submit_to (lit "print(1)") [] no_echo
    = (Raised (TimeoutError (lit "pri")),
       backend_of (submit_to (lit "print(1)") [] no_echo), []) /\
  ([] = @nil bytes /\
   exists es ev,
     history (backend_of (submit_to (lit "print(1)") [] no_echo))
       = history (backend_with [] no_echo) ++ es ++ [ev] /\
     consumed_units (es ++ [ev]) = [] /\
     raised_by ev (TimeoutError (lit "pri"))).
Proof.
  split; [vm_compute; reflexivity|].
  apply (@execute_raised micropython Conn _ SideCommand (list bytes)
           collect_output (lit "print(1)") (backend_with [] no_echo)
           (backend_of (submit_to (lit "print(1)") [] no_echo)) [] []
           (TimeoutError (lit "pri"))).
  vm_compute. reflexivity.
Defined.

Lemma welcome_text_drops_only_carriage_returns_witness :
  NORMAL_PROMPT <> [] /\
  process_until_initial_prompt service (fun text => text) Utf8.decode 2
      (attach crlf_banner) = Welcomed attached_crlf /\
  exists es raw decoded,
    history attached_crlf = history (attach crlf_banner) ++ es /\
    received es = raw ++ NORMAL_PROMPT /\
    Utf8.decode raw = Some decoded /\
    filter (fun x => negb (N.eqb x Text.CR)) (original_welcome_text attached_crlf)
      = filter (fun x => negb (N.eqb x Text.CR)) decoded /\
    length (original_welcome_text attached_crlf) <= length decoded /\
    (Text.contains decoded [Text.CR; Text.NL] = false ->
     original_welcome_text attached_crlf = decoded) /\
    welcome_text attached_crlf = original_welcome_text attached_crlf.
Proof.
  split; [discriminate|]. split; [vm_compute; reflexivity|].
  assert (Hne : @NORMAL_PROMPT micropython <> []) by discriminate.
  exact (@welcome_text_drops_only_carriage_returns micropython Conn _
           SideCommand service (fun text => text) Utf8.decode 2
           (attach crlf_banner) Hne).
Defined.

Lemma unexpected_output_loses_only_the_prompt_witness :
  NORMAL_PROMPT <> [] /\
  drain (connection leftover) = (lit "late
>>> ", device []) /\
  connection (forward_unexpected_output drain leftover) = device [] /\
  command_queue (forward_unexpected_output drain leftover)
    = command_queue leftover /\
  history (forward_unexpected_output drain leftover) = history leftover /\
  ((lit "late
>>> " = [] /\
    outbox (forward_unexpected_output drain leftover) = outbox leftover) \/
   (exists out,
      outbox (forward_unexpected_output drain leftover)
        = outbox leftover ++ [ProgramOutput stdout out] /\
      ((endswith (lit "late
>>> ") NORMAL_PROMPT = true /\ out ++ NORMAL_PROMPT = lit "late
>>> ") \/
       (endswith (lit "late
>>> ") NORMAL_PROMPT = false /\ lit "late
>>> " <> [] /\ out = lit "late
>>> ")))).
Proof.
  split; [discriminate|]. split; [reflexivity|].
  apply (@unexpected_output_loses_only_the_prompt micropython Conn SideCommand
           drain leftover (lit "late
>>> ") (device []));
    [discriminate | reflexivity].
Defined.

Lemma missing_executable_is_reported_witness :
  resolve_executable nowhere (lit "micropython")
    = Raised (ConnectionFailedException
        (lit "Executable 'micropython' not found. Please check your configuration! You may need to provide its absolute path.")) /\
  exists msg,
    ConnectionFailedException
        (lit "Executable 'micropython' not found. Please check your configuration! You may need to provide its absolute path.")
      = ConnectionFailedException msg /\
    startswith msg (lit "Executable '" ++ lit "micropython") = true /\
    endswith msg NOT_FOUND_HINT = negb (startswith (lit "micropython") (lit "/")) /\
    init nowhere connect_silent (lit "micropython")
      = Reported (ProgramOutput stderr ([x0a] ++ msg ++ [x0a])).
Proof.
  split; [reflexivity|].
  apply (proj1 (proj2 (@missing_executable_is_reported Conn nowhere
                         connect_silent (lit "micropython")))).
  reflexivity.
Defined.

Lemma run_arguments_witness :
  cmd_Run_connect connect_silent (fun _ b => b) run_inline (attach banner)
    = Ok (attach []) /\
  exists run_args,
    connect_silent run_args
      = Ok (connection (attach [])) /\
    ((run_args = args run_inline /\
      (truthy (source run_inline) = false \/
       exists a0 rest, args run_inline = a0 :: rest /\ a0 <> lit "-c")) \/
     (exists src rest,
        source run_inline = Some src /\ src <> [] /\
        args run_inline = lit "-c" :: rest /\
        run_args = [lit "-c"; src])).
Proof.
  split; [reflexivity|].
  apply (proj2 (@run_arguments Conn _ SideCommand connect_silent (fun _ b => b)
                  run_inline (attach banner))).
  reflexivity.
Defined.

Lemma fs_info_figures_witness :
  fs_info_of_output byte_fields byte_number [x64; x0a; x08; x04]
    = Some (mkFsInfo 400 32 360) /\
  exists total free available block_size,
    map byte_number (byte_fields [x64; x0a; x08; x04])
      = [Some total; Some free; Some available; Some block_size] /\
    fs_total (mkFsInfo 400 32 360) = (total * block_size)%Z /\
    fs_free (mkFsInfo 400 32 360) = (available * block_size)%Z /\
    fs_used (mkFsInfo 400 32 360) = ((total - free) * block_size)%Z /\
    (fs_used (mkFsInfo 400 32 360) + fs_free (mkFsInfo 400 32 360)
       = fs_total (mkFsInfo 400 32 360) - (free - available) * block_size)%Z /\
    ((0 <= block_size)%Z -> (available <= free)%Z ->
     (fs_used (mkFsInfo 400 32 360) + fs_free (mkFsInfo 400 32 360)
        <= fs_total (mkFsInfo 400 32 360))%Z).
Proof.
  split; [reflexivity|].
  apply (proj2 (@fs_info_figures byte_fields byte_number [x64; x0a; x08; x04])).
  reflexivity.
Defined.

End MoreEvaluation.
